(** * Local Search Aggregator: the streaming pipeline, embedded and verified

    A shallow embedding of the backend of the search-and-answer gateway:
    - [services/llm_service.py]: the prompt formatter and the streaming
      answer generator with its completion detection;
    - [services/search_service.py]: the search client and its error mapping;
    - [routes.py]: the [/unified] endpoint, the registry of active streams
      and the orchestrator that multiplexes search and generation into one
      stream of envelopes.

    Conventions of the embedding.
    - A Python [str] is a [string]; a character is one of the 256 code
      points of [ascii] (the Latin-1 range of Unicode).
    - A Python [int] is a [Z]; [len], [find] and slice bounds are [Z] as
      well, with [find]'s [-1] for "not found".
    - A dict with string values is a [gmap string string]; the registry of
      active streams is a [gmap] keyed by request id.
    - An async generator is the list of values it yields; the LLM backend
      is a possibly endless stream of events, indexed by [nat], and the loop
      that consumes it takes fuel. The orchestrator is given twice: over
      any generator whose run ends, and over the generator of
      [llm_service.py] with its fuel, where the stream may be left waiting.
    - Wall-clock readings are seconds in [Z]; float-valued request
      parameters are the rationals their decimal literals denote. *)

From Stdlib Require Import ZArith QArith Ascii String List Lia Bool.
From stdpp Require Import base gmap strings list pretty.

Local Open Scope Z_scope.

(** ** Python's string primitives *)

Module PyStr.

(** [len(s)]. *)
Definition len (s : string) : Z := Z.of_nat (String.length s).

(** [s.startswith(p)]. *)
Fixpoint startswith (p s : string) : bool :=
  match p, s with
  | EmptyString, _ => true
  | String _ _, EmptyString => false
  | String a p', String b s' => if Ascii.eqb a b then startswith p' s' else false
  end.

(** [sub in s]. *)
Fixpoint contains (sub s : string) : bool :=
  startswith sub s ||
  match s with
  | EmptyString => false
  | String _ s' => contains sub s'
  end.

(** Index of the first occurrence of [sub] in [s], if there is one. *)
Fixpoint find_index (sub s : string) : option nat :=
  if startswith sub s then Some 0%nat
  else match s with
       | EmptyString => None
       | String _ s' => S <$> find_index sub s'
       end.

(** [s.find(sub)]: the index of the first occurrence, [-1] when there is none. *)
Definition find (sub s : string) : Z :=
  match find_index sub s with
  | Some n => Z.of_nat n
  | None => -1
  end.

(** The first [n] characters, and what follows them. *)
Fixpoint take (n : nat) (s : string) : string :=
  match n, s with
  | O, _ => EmptyString
  | S _, EmptyString => EmptyString
  | S n', String a s' => String a (take n' s')
  end.

Fixpoint drop (n : nat) (s : string) : string :=
  match n, s with
  | O, _ => s
  | S _, EmptyString => EmptyString
  | S n', String _ s' => drop n' s'
  end.

(** A slice bound as Python resolves it: a negative bound counts from the
    end, and the result is clamped to [0 .. len s]. *)
Definition slice_bound (s : string) (i : Z) : nat :=
  if i <? 0 then Z.to_nat (Z.max 0 (len s + i))
  else Z.to_nat (Z.min i (len s)).

(** [s[:i]] and [s[i:]]. *)
Definition slice_to (s : string) (i : Z) : string := take (slice_bound s i) s.
Definition slice_from (s : string) (i : Z) : string := drop (slice_bound s i) s.

(** [c.isspace()] on the 256 code points: the ASCII controls 9..13 and
    28..31, the space, and the Latin-1 NEL (133) and no-break space (160). *)
Definition isspace (c : ascii) : bool :=
  let n := N_of_ascii c in
  ((9 <=? n) && (n <=? 13) || (28 <=? n) && (n <=? 32) || (n =? 133) || (n =? 160))%N.

(** [s.lstrip()], [s.rstrip()] and [s.strip()], with no argument. *)
Fixpoint lstrip (s : string) : string :=
  match s with
  | EmptyString => EmptyString
  | String a s' => if isspace a then lstrip s' else s
  end.

Fixpoint rstrip (s : string) : string :=
  match s with
  | EmptyString => EmptyString
  | String a s' =>
      match rstrip s' with
      | EmptyString => if isspace a then EmptyString else String a EmptyString
      | r => String a r
      end
  end.

Definition strip (s : string) : string := rstrip (lstrip s).

(** [c.lower()] on the 256 code points: A..Z and the Latin-1 capitals
    (192..222 except the multiplication sign 215) move up by 32. *)
Definition lower_char (c : ascii) : ascii :=
  let n := N_of_ascii c in
  if ((65 <=? n) && (n <=? 90) || (192 <=? n) && (n <=? 222) && negb (n =? 215))%N
  then ascii_of_N (n + 32) else c.

Fixpoint lower (s : string) : string :=
  match s with
  | EmptyString => EmptyString
  | String a s' => String (lower_char a) (lower s')
  end.

(** Truthiness of a string: non-empty. *)
Definition truthy (s : string) : bool :=
  match s with EmptyString => false | String _ _ => true end.

(** [len(s.split())]: the number of maximal runs of non-space characters. *)
Fixpoint count_words_from (in_word : bool) (s : string) : Z :=
  match s with
  | EmptyString => 0
  | String a s' =>
      if isspace a then count_words_from false s'
      else (if in_word then 0 else 1) + count_words_from true s'
  end.

Definition count_words (s : string) : Z := count_words_from false s.

(** The concatenation of a list of strings. *)
Definition concat (l : list string) : string := foldr String.append EmptyString l.

End PyStr.

(** ** services/llm_service.py *)

Module LlmService.
Import PyStr.

(** The part of [config.settings] the generator reads. *)
Record Settings := {
  OLLAMA_TIMEOUT : Z;
  OLLAMA_MAX_TOKENS : Z }.

(** The search backend's response, as far as the pipeline reads it: the
    organic entries (an absent key and an empty list behave alike
    everywhere), and the featured answer under either of its two keys
    ([None] when the key is absent). Entries and answer boxes are dicts
    with string values. *)
Record search_results := {
  organic : list (gmap string string);
  answerBox : option (gmap string string);
  answer_box : option (gmap string string) }.

(** Truthiness of a dict: non-empty. *)
Definition dict_truthy (d : gmap string string) : bool := bool_decide (d ≠ ∅).

Definition nl : string := String "010"%char EmptyString.
Definition dquote : string := String "034"%char EmptyString.

(** [fallback_answer(query)]. *)
Definition fallback_answer (query : string) : string :=
  "I'm sorry, I couldn't generate a complete response for '" +:+ query +:+
  "'. Please try a more specific question or check back later.".

(** [if len(s) > limit: s = s[:cut] + "..."], as the formatter does it for
    snippets (400, 397) and for the featured answer (500, 497). *)
Definition ellipsize (limit cut : Z) (s : string) : string :=
  if len s >? limit then slice_to s cut +:+ "..." else s.

Definition prompt_header (query : string) : string :=
  "You are an AI assistant that provides helpful, accurate, thorough, and complete answers based on search results." +:+ nl +:+
  nl +:+
  "USER QUERY: " +:+ query +:+ nl +:+
  nl +:+
  "Your task is to analyze and synthesize the following search results to provide a comprehensive answer to the user's question. " +:+ nl +:+
  "Focus on being accurate, detailed, dont explain it overexaggerated and complete in your response." +:+ nl +:+
  nl.

(** The answer box the formatter settles on: the one under [answerBox],
    or, when that key is absent, the one under [answer_box]. *)
Definition resolve_answer_box (sr : search_results) : gmap string string :=
  let box := default ∅ (answerBox sr) in
  if negb (dict_truthy box) && negb (bool_decide (is_Some (answerBox sr)))
  then default ∅ (answer_box sr)
  else box.

Definition featured_section (sr : search_results) : string :=
  let box := resolve_answer_box sr in
  if dict_truthy box then
    "FEATURED ANSWER:" +:+ nl +:+
    match box !! "answer" with
    | Some answer => ellipsize 500 497 answer +:+ nl +:+ nl
    | None =>
        match box !! "snippet" with
        | Some snippet => ellipsize 500 497 snippet +:+ nl +:+ nl
        | None => EmptyString
        end
    end
  else EmptyString.

(** One pass of the loop over [enumerate(organic_results, 1)]. *)
Definition result_section (i : nat) (result : gmap string string) : string :=
  let title := default "No Title" (result !! "title") in
  let snippet := ellipsize 400 397 (default "No Snippet" (result !! "snippet")) in
  let link := default "No Link" (result !! "link") in
  pretty i +:+ ". " +:+ title +:+ nl +:+
  "   " +:+ snippet +:+ nl +:+
  "   Source: " +:+ link +:+ nl +:+ nl.

Definition prompt_instructions : string :=
  "INSTRUCTIONS:" +:+ nl +:+
  "1. Provide a thorough and complete answer to the user's query." +:+ nl +:+
  "2. Structure your response with a clear beginning, middle, and conclusion." +:+ nl +:+
  "3. Include relevant facts, explanations, and context from the search results." +:+ nl +:+
  "4. If the information is not sufficient, acknowledge this limitation." +:+ nl +:+
  "5. Do not include phrases like " +:+ dquote +:+ "Based on the search results" +:+ dquote +:+
  " or " +:+ dquote +:+ "According to the information provided" +:+ dquote +:+ " in your answer." +:+ nl +:+
  "6. Write in a helpful, informative tone." +:+ nl +:+
  "7. Always finish your response with a proper conclusion or summary." +:+ nl +:+
  "8. Make sure your answer is complete and doesn't cut off mid-explanation." +:+ nl +:+
  "9. End your response with the phrase " +:+ dquote +:+ "END OF RESPONSE" +:+ dquote +:+
  " to indicate you have finished." +:+ nl +:+
  nl +:+
  "Remember: Your goal is to provide a complete, well-structured answer that fully addresses the user's question." +:+ nl +:+
  nl +:+
  "Begin your response now:" +:+ nl.

(** [format_optimized_prompt(query, search_results)]. *)
Definition format_optimized_prompt (query : string) (sr : search_results) : string :=
  let organic_results := firstn 5 (organic sr) in
  prompt_header query +:+
  featured_section sr +:+
  "SEARCH RESULTS:" +:+ nl +:+
  concat (imap (fun k result => result_section (S k) result) organic_results) +:+
  prompt_instructions.

(** *** The streaming generator *)

(** The value under a frame's ["response"] key: a text, or a JSON value
    of another type, of which only the truthiness matters. *)
Inductive response_value :=
| RText (text_chunk : string)
| ROther (truth : bool).

(** What [json.loads] makes of one raw chunk of the response body. *)
Inductive frame :=
| Malformed                      (* json.loads raises JSONDecodeError *)
| NonObject                      (* valid JSON, but not an object *)
| Object (done : bool) (response : option response_value).
    (* [done]: truthiness of data.get("done", False);
       [response]: the value under "response", when the key is there *)

(** What the backend delivers at one position of the stream. *)
Inductive stream_event :=
| Chunk (f : frame)
| EndOfStream                    (* aiter_text is exhausted *)
| HttpxError                     (* httpx.HTTPStatusError, which raise_for_status
                                    raises before the first chunk, or
                                    httpx.RequestError *)
| OtherError.                    (* any other Exception *)

(** The backend: its event at every position. Events after the first one
    that ends the loop are never looked at. *)
Definition backend := nat -> stream_event.

(** A backend that delivers the frames of [l] and then closes the stream. *)
Definition backend_of_frames (l : list frame) : backend :=
  fun n => match l !! n with Some f => Chunk f | None => EndOfStream end.

(** A backend that delivers the texts [t 0], [t 1], ... and never stops. *)
Definition backend_of_texts (t : nat -> string) : backend :=
  fun n => Chunk (Object false (Some (RText (t n)))).

(** A frame that carries the text [s]. *)
Definition text_frame (s : string) : frame := Object false (Some (RText s)).

(** The text an event brings into the loop body, if it brings one. *)
Definition event_text (e : stream_event) : option string :=
  match e with
  | Chunk (Object false (Some (RText text_chunk))) =>
      if truthy text_chunk then Some text_chunk else None
  | _ => None
  end.

(** The texts among the first [n] events of a backend, in order. *)
Definition delivered (b : backend) (n : nat) : list string :=
  omap (fun i => event_text (b i)) (seq 0 n).

(** The events that end the loop whatever its state: the stream closes or
    fails, the backend signals [done], or a frame has the wrong shape. *)
Definition ends_stream (e : stream_event) : bool :=
  match e with
  | EndOfStream | HttpxError | OtherError => true
  | Chunk NonObject => true
  | Chunk (Object true _) => true
  | Chunk (Object false (Some (ROther true))) => true
  | Chunk _ => false
  end.

Record gen_state := {
  has_yielded : bool;
  buffer : string;
  iterations : Z;
  natural_completion_detected : bool }.

Definition initial_state : gen_state :=
  {| has_yielded := false; buffer := EmptyString; iterations := 0;
     natural_completion_detected := false |}.

Definition end_token : string := "END OF RESPONSE".

Definition completion_indicators : list string :=
  [ "In conclusion"; "To summarize"; "In summary";
    "Thank you for your question"; "I hope this helps"; end_token ].

Definition closing : string :=
  nl +:+ nl +:+ "I hope this information addresses your question. Let me know if you need further clarification.".

Definition emergency_fallback : string :=
  "I apologize, but I couldn't process your request at this time. Please try again later.".

(** How one pass of the loop body ends. *)
Inductive control := Continue | Break | Raise.

(** The loop body for a non-empty [text_chunk]: what it yields, the state
    it leaves, and whether the loop goes on. *)
Definition on_text (max_iterations : Z) (text_chunk : string) (st : gen_state)
  : list string * gen_state * control :=
  let temp_buffer := buffer st +:+ text_chunk in
  let end_token_pos := find end_token temp_buffer in
  if negb (end_token_pos =? -1) then
    let yielded :=
      if end_token_pos >? 0 then
        let final_chunk := strip (slice_to temp_buffer end_token_pos) in
        if len final_chunk >? len (buffer st)
        then [slice_from final_chunk (len (buffer st))]
        else []
      else [] in
    (yielded,
     {| has_yielded := has_yielded st; buffer := buffer st;
        iterations := iterations st; natural_completion_detected := true |},
     Break)
  else
    let detected :=
      natural_completion_detected st ||
      existsb (fun indicator => contains (lower indicator) (lower temp_buffer))
              completion_indicators in
    let iterations' := iterations st + 1 in
    let st' := {| has_yielded := true; buffer := temp_buffer;
                  iterations := iterations';
                  natural_completion_detected := detected |} in
    if iterations' >=? max_iterations then
      (text_chunk :: (if negb detected then [closing] else []), st', Break)
    else ([text_chunk], st', Continue).

(** The loop body for one frame. *)
Definition on_frame (max_iterations : Z) (f : frame) (st : gen_state)
  : list string * gen_state * control :=
  match f with
  | Malformed => ([], st, Continue)
  | NonObject => ([], st, Raise)
  | Object true _ => ([], st, Break)
  | Object false None => ([], st, Continue)
  | Object false (Some (RText text_chunk)) =>
      if truthy text_chunk then on_text max_iterations text_chunk st
      else ([], st, Continue)
  | Object false (Some (ROther truth)) =>
      if truth then ([], st, Raise) else ([], st, Continue)
  end.

(** How the [async for] loop was left. *)
Inductive loop_exit :=
| Completed       (* the stream ran out, or a [break] *)
| HttpFailed      (* caught by the two httpx handlers *)
| Crashed.        (* caught by the outer [except Exception] *)

(** The [async for] loop from position [i] on: everything yielded so far,
    the final state and the way out; [None] when the fuel runs out first. *)
Fixpoint stream_loop (fuel : nat) (max_iterations : Z) (b : backend) (i : nat)
    (st : gen_state) (yielded : list string)
  : option (list string * gen_state * loop_exit) :=
  match fuel with
  | O => None
  | S fuel' =>
      match b i with
      | EndOfStream => Some (yielded, st, Completed)
      | HttpxError => Some (yielded, st, HttpFailed)
      | OtherError => Some (yielded, st, Crashed)
      | Chunk f =>
          let '(out, st', c) := on_frame max_iterations f st in
          match c with
          | Continue => stream_loop fuel' max_iterations b (S i) st' (yielded ++ out)
          | Break => Some (yielded ++ out, st', Completed)
          | Raise => Some (yielded ++ out, st', Crashed)
          end
      end
  end.

(** What follows the loop, by the way it was left. *)
Definition after_loop (query : string) (max_iterations : Z) (st : gen_state)
    (exit : loop_exit) : list string :=
  let incomplete :=
    if has_yielded st && negb (natural_completion_detected st)
       && (iterations st <? max_iterations)
    then [closing] else [] in
  let no_response :=
    if negb (has_yielded st) || negb (truthy (strip (buffer st)))
    then [fallback_answer query] else [] in
  let handled :=
    match exit with
    | Completed => incomplete ++ no_response
    | HttpFailed => no_response
    | Crashed => [fallback_answer query]
    end in
  handled ++ (if negb (has_yielded st) then [emergency_fallback] else []).

(** The request sent to the LLM backend, as far as it varies. *)
Record generate_request := {
  prompt : string;
  num_predict : Z;
  request_timeout : Z }.

(** The payload the generator sends: the prompt, and the timeout
    [timeout or settings.OLLAMA_TIMEOUT]. *)
Definition generate_payload (settings : Settings) (query : string)
    (sr : search_results) (timeout : option Z) : generate_request :=
  let timeout :=
    match timeout with
    | Some t => if t =? 0 then OLLAMA_TIMEOUT settings else t
    | None => OLLAMA_TIMEOUT settings
    end in
  {| prompt := format_optimized_prompt query sr;
     num_predict := OLLAMA_MAX_TOKENS settings;
     request_timeout := timeout |}.

(** [generate_answer_streaming(query, search_results, max_iterations,
    timeout)]: the list of the fragments it yields. [llm] is the backend's
    answer to a request. *)
Definition generate_answer_streaming (settings : Settings) (llm : generate_request -> backend)
    (fuel : nat) (query : string) (sr : search_results) (max_iterations : Z)
    (timeout : option Z) : option (list string) :=
  let payload := generate_payload settings query sr timeout in
  match stream_loop fuel max_iterations (llm payload) 0 initial_state [] with
  | None => None
  | Some (yielded, st, exit) => Some (yielded ++ after_loop query max_iterations st exit)
  end.

End LlmService.

(** ** services/search_service.py *)

Module SearchService.
Import PyStr LlmService.

(** The request [search_serper] sends. *)
Record search_request := {
  url : string;
  api_key : string;
  q : string;
  gl : string;
  hl : string;
  post_timeout : Q }.

(** A response of the search backend: its status, the text of the
    [HTTPStatusError] that [raise_for_status] builds from it, and its body
    as [response.json()] and the logging that follows read it: [inl] with
    the text of the exception when that fails. *)
Record http_response := {
  status_code : Z;
  status_error : string;
  body : string + search_results }.

(** The subclasses of [httpx.RequestError] that the client tells apart. *)
Inductive request_error :=
| TimeoutException
| ConnectError
| OtherRequestError.

(** What [client.post] does. *)
Inductive post_outcome :=
| Responded (response : http_response)
| RequestFailed (kind : request_error) (text : string)
| Failed (text : string).         (* an Exception that is not from httpx *)

(** [fastapi.HTTPException]. *)
Record HTTPException := {
  http_status : Z;
  detail : string }.

(** The network: the requests sent so far, and the backend's answer to
    the [n]-th request. *)
Record network := {
  sent : list search_request;
  answer_to : nat -> search_request -> post_outcome }.

(** Computations that use the network and may raise an [HTTPException]. *)
Definition M (A : Type) : Type := network -> network * (HTTPException + A).

#[global] Instance M_ret : MRet M := fun A a w => (w, inr a).
#[global] Instance M_bind : MBind M := fun A B f m w =>
  match m w with
  | (w', inl e) => (w', inl e)
  | (w', inr a) => f a w'
  end.

Definition raise {A : Type} (e : HTTPException) : M A := fun w => (w, inl e).

Definition client_post (r : search_request) : M post_outcome := fun w =>
  ({| sent := sent w ++ [r]; answer_to := answer_to w |},
   inr (answer_to w (length (sent w)) r)).

(** [response.raise_for_status()] raises unless the status is a 2xx. *)
Definition is_success (code : Z) : bool := (200 <=? code) && (code <=? 299).

Section Search.

(** Settings, and Python's rendering of a float in an f-string. *)
Variable SERPER_API_KEY SERPER_API_URL : string.
Variable float_str : Q -> string.

(** [search_serper(query, timeout)]. *)
Definition search_serper (query : string) (timeout : Q) : M search_results :=
  outcome ← client_post {| url := SERPER_API_URL; api_key := SERPER_API_KEY;
                           q := query; gl := "us"; hl := "en";
                           post_timeout := timeout |};
  match outcome with
  | Responded response =>
      if is_success (status_code response) then
        match body response with
        | inr result => mret result
        | inl text =>
            raise {| http_status := 500; detail := "Unexpected error: " +:+ text |}
        end
      else if status_code response =? 403 then
        raise {| http_status := 403;
                 detail := "Authentication failed with Serper.dev API. Please check your API key." |}
      else
        raise {| http_status := status_code response;
                 detail := "Search API error: " +:+ status_error response |}
  | RequestFailed TimeoutException _ =>
      raise {| http_status := 504;
               detail := "Search request timed out after " +:+ float_str timeout +:+ " seconds" |}
  | RequestFailed ConnectError _ =>
      raise {| http_status := 503; detail := "Could not connect to search API" |}
  | RequestFailed OtherRequestError text =>
      raise {| http_status := 500; detail := "Request error: " +:+ text |}
  | Failed text =>
      raise {| http_status := 500; detail := "Unexpected error: " +:+ text |}
  end.

End Search.

End SearchService.

(** ** routes.py *)

Module Routes.
Import PyStr LlmService.

Definition MAX_LLM_ITERATIONS : Z := 150.

(** [class StreamRequest]. *)
Record StreamRequest := {
  query : string;
  request_id : option string;
  session_id : option string;
  model : option string;
  language : option string;
  max_search_results : option Z;
  temperature : option Q;
  max_tokens : option Z;
  top_p : option Q;
  top_k : option Z;
  timeout : option Z }.

(** The model built from a body that holds the query alone: every other
    field takes the default the class declares. [uuid] is [str(uuid.uuid4())]. *)
Definition StreamRequest_defaults (query uuid : string) : StreamRequest :=
  {| query := query;
     request_id := Some uuid;
     session_id := None;
     model := None;
     language := Some "en";
     max_search_results := Some 5;
     temperature := Some 0.7%Q;
     max_tokens := Some 2048;
     top_p := Some 0.9%Q;
     top_k := Some 40;
     timeout := Some 180 |}.

(** How a call of the endpoint can fail before it streams. *)
Inductive endpoint_error :=
| HTTPError (status_code : Z) (detail : string)
| ValueError.                  (* int() or float() of a malformed parameter *)

Section Endpoint.

(** [int(s)] and [float(s)] on a string; [None] is a [ValueError]. *)
Variable py_int : string -> option Z.
Variable py_float : string -> option Q.

(** [int(query_params.get(key, default))]. *)
Definition int_param (query_params : gmap string string) (key : string) (default : Z)
  : option Z :=
  match query_params !! key with
  | Some s => py_int s
  | None => Some default
  end.

(** [float(query_params.get(key, default))]. *)
Definition float_param (query_params : gmap string string) (key : string) (default : Q)
  : option Q :=
  match query_params !! key with
  | Some s => py_float s
  | None => Some default
  end.

(** [unified_endpoint] when no body was given (a GET): the
    [StreamRequest] it builds from the query parameters. *)
Definition unified_endpoint_get (query_params : gmap string string) (uuid : string)
  : endpoint_error + StreamRequest :=
  match query_params !! "query" with
  | None => inl (HTTPError 400 "Query parameter is required")
  | Some query =>
      if negb (truthy query) then inl (HTTPError 400 "Query parameter is required")
      else
        match int_param query_params "max_search_results" 5,
              float_param query_params "temperature" 0.7%Q,
              int_param query_params "max_tokens" 4096,
              float_param query_params "top_p" 0.9%Q,
              int_param query_params "top_k" 40,
              int_param query_params "timeout" 300 with
        | Some max_search_results, Some temperature, Some max_tokens,
          Some top_p, Some top_k, Some timeout =>
            inr {| query := query;
                   request_id := Some (default uuid (query_params !! "request_id"));
                   session_id := query_params !! "session_id";
                   model := query_params !! "model";
                   language := Some (default "en" (query_params !! "language"));
                   max_search_results := Some max_search_results;
                   temperature := Some temperature;
                   max_tokens := Some max_tokens;
                   top_p := Some top_p;
                   top_k := Some top_k;
                   timeout := Some timeout |}
        | _, _, _, _, _, _ => inl ValueError
        end
  end.

End Endpoint.

(** [x or y] on an optional string. *)
Definition str_or (x : option string) (y : string) : string :=
  match x with
  | Some s => if truthy s then s else y
  | None => y
  end.

(** *** The registry of active streams *)

(** One entry of [active_streams]. *)
Record stream_data := {
  start_time : Z;
  stream_session_id : string;
  stream_query : string;
  disconnected : bool }.

(** [active_streams[request_id] = {...}], as [unified_endpoint] registers
    a stream at time [now]. *)
Definition register_stream (now : Z) (request_id session_id query : string)
    (active_streams : gmap string stream_data) : gmap string stream_data :=
  <[request_id := {| start_time := now; stream_session_id := session_id;
                     stream_query := query; disconnected := false |}]> active_streams.

(** The background task added to the response:
    [active_streams.pop(request_id, None)]. *)
Definition completion_hook (request_id : string)
    (active_streams : gmap string stream_data) : gmap string stream_data :=
  delete request_id active_streams.

(** One pass of [cleanup_active_streams] at time [now]: the streams older
    than 15 minutes are removed. *)
Definition cleanup_active_streams (now : Z)
    (active_streams : gmap string stream_data) : gmap string stream_data :=
  filter (fun kv => ¬ (now - start_time kv.2 > 15 * 60)) active_streams.

(** [is_disconnected()], on the registry as it is when the check runs. *)
Definition is_disconnected (active_streams : gmap string stream_data)
    (request_id : string) : bool :=
  match active_streams !! request_id with
  | Some stream => disconnected stream
  | None => false
  end.

(** *** The unified stream *)

(** The [data] of an envelope: a text, or one organic result. *)
Inductive payload :=
| Text (s : string)
| Result (r : gmap string string).

Inductive meta_value :=
| MStr (s : string)
| MInt (n : Z)
| MBool (b : bool).

(** The message [format_sse] serializes. The timestamp and the elapsed
    times in the metadata are clock readings and are left out. *)
Record message := {
  type : string;
  data : payload;
  msg_request_id : string;
  msg_session_id : string;
  metadata : list (string * meta_value) }.

(** What the stream yields: a serialized message, or the end marker
    [data: [DONE]]. *)
Inductive sse :=
| Data (m : message)
| DONE.

(** A raised exception: [type(e).__name__] and [str(e)]. *)
Record py_exception := {
  type_name : string;
  text : string }.

Inductive search_outcome :=
| SearchReturned (results : search_results)
| SearchRaised (e : py_exception).

(** A run of the answer generator that has ended: the chunks it yielded
    and, if it ended by raising, the exception. (A generator that has not
    ended is the matter of [Pipeline.unified_stream].) *)
Record generation := {
  chunks : list string;
  raised : option py_exception }.

(** The places where the stream asks [is_disconnected()]. *)
Inductive checkpoint :=
| AfterSearch
| BeforeResult (idx : nat)
| BeforeGeneration
| AfterChunk (idx : nat).

Definition empty_results : search_results :=
  {| organic := []; answerBox := None; answer_box := None |}.

(** [l[:i]] on a list. *)
Definition list_slice_to {A : Type} (l : list A) (i : Z) : list A :=
  if i <? 0 then firstn (Z.to_nat (Z.max 0 (Z.of_nat (length l) + i))) l
  else firstn (Z.to_nat i) l.

Section Stream.

Variable stream_request : StreamRequest.
Variable request_id session_id : string.

(** The collaborators: the search client, the answer generator, and the
    registry as each check finds it. *)
Variable search : string -> search_outcome.
Variable generate : string -> search_results -> Z -> option Z -> generation.
Variable registry_at : checkpoint -> gmap string stream_data.

Definition format_sse (event_type : string) (data : payload)
    (metadata : list (string * meta_value)) : sse :=
  Data {| type := event_type; data := data;
          msg_request_id := request_id; msg_session_id := session_id;
          metadata := metadata |}.

Definition polled (c : checkpoint) : bool := is_disconnected (registry_at c) request_id.

(** The loop over [search_results['organic'][:max_results]]; the flag is
    [false] when a check made the stream return. *)
Fixpoint stream_search_results (idx : nat) (max_results : Z)
    (results : list (gmap string string)) : list sse * bool :=
  match results with
  | [] => ([], true)
  | result :: rest =>
      if polled (BeforeResult idx) then ([], false)
      else
        let '(out, alive) := stream_search_results (S idx) max_results rest in
        (format_sse "search_result" (Result result)
           [("position", MInt (Z.of_nat idx + 1)); ("total", MInt max_results)] :: out,
         alive)
  end.

Definition search_error (e : py_exception) : sse :=
  format_sse "error" (Text ("Search error: " +:+ text e))
    [("step", MStr "search_error"); ("error_type", MStr (type_name e))].

(** The search phase: what it yields, and the results the generation
    phase is to use; [None] when a check made the stream return. *)
Definition search_phase : list sse * option search_results :=
  match search (query stream_request) with
  | SearchRaised e => ([search_error e], Some empty_results)
  | SearchReturned results =>
      if polled AfterSearch then ([], None)
      else
        let organic_count := Z.of_nat (length (organic results)) in
        let completed :=
          format_sse "status" (Text "Search completed")
            [("step", MStr "search_complete"); ("result_count", MInt organic_count)] in
        match organic results with
        | [] => ([completed], Some results)
        | _ :: _ =>
            match max_search_results stream_request with
            | None =>
                (* min(None, n) raises a TypeError, caught as a search error *)
                ([completed;
                  search_error
                    {| type_name := "TypeError";
                       text := "'<' not supported between instances of 'int' and 'NoneType'" |}],
                 Some empty_results)
            | Some requested =>
                let max_results := Z.min requested organic_count in
                let '(out, alive) :=
                  stream_search_results 0 max_results
                    (list_slice_to (organic results) max_results) in
                (completed :: out, if alive then Some results else None)
            end
        end
  end.

(** The loop over the generator's chunks: what it yields and the
    counters [chunk_count], [total_tokens] and [has_content] it ends with;
    [None] when a check made the stream return. *)
Fixpoint stream_chunks (idx : nat) (chunk_count total_tokens : Z) (has_content : bool)
    (cs : list string) : list sse * option (Z * Z * bool) :=
  match cs with
  | [] => ([], Some (chunk_count, total_tokens, has_content))
  | chunk :: rest =>
      if polled (AfterChunk idx) then ([], None)
      else if truthy chunk then
        let chunk_count' := chunk_count + 1 in
        let '(out, r) :=
          stream_chunks (S idx) chunk_count' (total_tokens + count_words chunk) true rest in
        (format_sse "answer_chunk" (Text chunk)
           [("step", MStr "generation_chunk"); ("chunk_id", MInt chunk_count');
            ("tokens", MInt (count_words chunk))] :: out, r)
      else stream_chunks (S idx) chunk_count total_tokens has_content rest
  end.

(** The generation phase on [results]; the flag is [false] when a check
    made the stream return. *)
Definition generation_phase (results : search_results) : list sse * bool :=
  let run := generate (query stream_request) results MAX_LLM_ITERATIONS
                      (timeout stream_request) in
  match stream_chunks 0 0 0 false (chunks run) with
  | (out, None) => (out, false)
  | (out, Some (chunk_count, total_tokens, has_content)) =>
      match raised run with
      | Some e =>
          (out ++
           [format_sse "error" (Text ("Generation error: " +:+ text e))
              [("step", MStr "generation_error"); ("error_type", MStr (type_name e))];
            format_sse "answer_chunk"
              (Text "I apologize, but I encountered an error while generating your answer. Please try again.")
              [("step", MStr "fallback")]],
           true)
      | None =>
          (out ++
           (if negb has_content then
              [format_sse "answer_chunk"
                 (Text "I couldn't generate a specific answer based on the search results. Please try rephrasing your question.")
                 [("step", MStr "fallback")]]
            else []) ++
           [format_sse "status" (Text "Generation completed successfully")
              [("step", MStr "generation_complete"); ("total_tokens", MInt total_tokens);
               ("chunk_count", MInt chunk_count); ("is_complete", MBool true)]],
           true)
      end
  end.

(** [generate_unified_stream()]: everything the stream yields, for a
    generator whose run ends. *)
Definition generate_unified_stream : list sse :=
  [format_sse "status" (Text "Processing query") [("step", MStr "init")];
   format_sse "status" (Text "Searching the web...") [("step", MStr "search_start")]] ++
  match search_phase with
  | (found, None) => found
  | (found, Some results) =>
      found ++
      if polled BeforeGeneration then []
      else
        format_sse "status" (Text "Generating answer...") [("step", MStr "generation_start")] ::
        match generation_phase results with
        | (answer, false) => answer
        | (answer, true) =>
            answer ++
            [format_sse "status" (Text "Request completed") [("step", MStr "complete")];
             DONE]
        end
  end.

End Stream.

(** The answer generator of [LlmService], run to its end with [fuel], as
    the stream's collaborator. It raises nothing of its own. *)
Definition generation_of (settings : Settings) (llm : generate_request -> backend)
    (fuel : nat) (query : string) (results : search_results) (max_iterations : Z)
    (timeout : option Z) : option generation :=
  out ← generate_answer_streaming settings llm fuel query results max_iterations timeout;
  Some {| chunks := out; raised := None |}.

(** Observers of a stream. *)
Definition is_type (t : string) (e : sse) : bool :=
  match e with
  | Data m => bool_decide (type m = t)
  | DONE => false
  end.

Definition is_step (s : string) (kv : string * meta_value) : bool :=
  match kv with
  | (k, MStr v) => bool_decide (k = "step") && bool_decide (v = s)
  | _ => false
  end.

Definition has_step (s : string) (e : sse) : bool :=
  match e with
  | Data m => existsb (is_step s) (metadata m)
  | DONE => false
  end.

Definition is_done (e : sse) : bool :=
  match e with
  | Data _ => false
  | DONE => true
  end.

(** The organic result an envelope carries, when it is a
    [search_result] envelope; the results a stream carries. *)
Definition result_of (e : sse) : option (gmap string string) :=
  match e with
  | Data m =>
      match data m with
      | Result r => if bool_decide (type m = "search_result") then Some r else None
      | Text _ => None
      end
  | DONE => None
  end.

Definition search_results_of (stream : list sse) : list (gmap string string) :=
  omap result_of stream.

End Routes.

(** ** Scenarios *)

Module Scenarios.
Import PyStr LlmService.

Definition settings0 : Settings :=
  {| OLLAMA_TIMEOUT := 180; OLLAMA_MAX_TOKENS := 2048 |}.

Definition no_results : search_results :=
  {| organic := []; answerBox := None; answer_box := None |}.

(** The answer of the specification's sentinel scenario, sentinel included. *)
Definition paris : string := "Paris is the capital.END OF RESPONSE".

(** The backend that delivers [paris] in two chunks, cut at [k]. *)
Definition paris_split (k : nat) : backend :=
  backend_of_frames [text_frame (take k paris); text_frame (drop k paris)].

(** A backend that never signals [done] and never delivers a text: every
    frame is a well-formed object with an empty response. *)
Definition blank_backend : backend :=
  fun _ => Chunk (Object false (Some (RText EmptyString))).

(** A backend that never signals [done] and delivers a space every time. *)
Definition spaces_backend : backend :=
  backend_of_texts (fun _ => " ").

(** A network on which nothing was sent yet and which answers every
    request with [o]; a rendering of floats that knows the orchestrator's
    search timeout. *)
Definition network_answering (o : SearchService.post_outcome) : SearchService.network :=
  {| SearchService.sent := []; SearchService.answer_to := fun _ _ => o |}.

Definition float_str0 : Q -> string := fun _ => "30.0".

(** A unified request for the query alone, with the identifier [r-1]. *)
Definition request0 : Routes.StreamRequest :=
  Routes.StreamRequest_defaults "capital of France" "r-1".

(** The search client's timeout, as the orchestrator catches it. *)
Definition timeout_error : Routes.py_exception :=
  {| Routes.type_name := "HTTPException";
     Routes.text := "504: Search request timed out after 30.0 seconds" |}.

Definition failing_search : string -> Routes.search_outcome :=
  fun _ => Routes.SearchRaised timeout_error.

(** A search that returns seven bare results. *)
Definition seven_results : search_results :=
  {| organic := replicate 7 ∅; answerBox := None; answer_box := None |}.

Definition good_search : string -> Routes.search_outcome :=
  fun _ => Routes.SearchReturned seven_results.

(** A generator that yields the one fragment of the sentinel scenario. *)
Definition paris_generation : string -> search_results -> Z -> option Z -> Routes.generation :=
  fun _ _ _ _ => {| Routes.chunks := ["Paris is the capital."]; Routes.raised := None |}.

(** The registry with the stream [r-1] as registered at time 0, and the
    same with the stream marked as disconnected. *)
Definition registered : gmap string Routes.stream_data :=
  Routes.register_stream 0 "r-1" "r-1" "capital of France" ∅.

Definition marked : gmap string Routes.stream_data :=
  {[ "r-1" := {| Routes.start_time := 0; Routes.stream_session_id := "r-1";
                 Routes.stream_query := "capital of France";
                 Routes.disconnected := true |} ]}.

(** Registries over time: the client stays; the client is marked as gone
    when the generation phase is about to begin. *)
Definition client_stays : Routes.checkpoint -> gmap string Routes.stream_data :=
  fun _ => registered.

Definition client_gone_before_generation
  : Routes.checkpoint -> gmap string Routes.stream_data :=
  fun c => match c with Routes.BeforeGeneration => marked | _ => registered end.

End Scenarios.

(** ** Finite streams *)

Module Streams.
Import PyStr LlmService.

(** A backend that delivers the events of [l] and then closes the stream. *)
Definition backend_of_events (l : list stream_event) : backend :=
  fun n => default EndOfStream (l !! n).

(** The [async for] loop of [generate_answer_streaming] over a finite list
    of events: the same passes as [stream_loop] makes, by recursion on the
    list. *)
Fixpoint events_loop (max_iterations : Z) (l : list stream_event) (st : gen_state)
    (yielded : list string) : list string * gen_state * loop_exit :=
  match l with
  | [] => (yielded, st, Completed)
  | EndOfStream :: _ => (yielded, st, Completed)
  | HttpxError :: _ => (yielded, st, HttpFailed)
  | OtherError :: _ => (yielded, st, Crashed)
  | Chunk f :: l' =>
      let '(out, st', c) := on_frame max_iterations f st in
      match c with
      | Continue => events_loop max_iterations l' st' (yielded ++ out)
      | Break => (yielded ++ out, st', Completed)
      | Raise => (yielded ++ out, st', Crashed)
      end
  end.

(** The frames the loop body passes over: malformed ones, objects without
    a response, and objects whose response is empty or falsy. *)
Definition skipped (f : frame) : bool :=
  match f with
  | Malformed => true
  | NonObject => false
  | Object true _ => false
  | Object false None => true
  | Object false (Some (RText text_chunk)) => negb (truthy text_chunk)
  | Object false (Some (ROther truth)) => negb truth
  end.

(** The check the loop body makes on the buffer: some completion
    indicator, lowered, is in the lowered text. *)
Definition indicated (s : string) : bool :=
  existsb (fun indicator => contains (lower indicator) (lower s)) completion_indicators.

(** A text of white space only (the empty text is one). *)
Fixpoint all_space (s : string) : bool :=
  match s with
  | EmptyString => true
  | String a s' => isspace a && all_space s'
  end.

(** The text begins with a white-space character. *)
Definition leading_space (s : string) : bool :=
  match s with
  | EmptyString => false
  | String a _ => isspace a
  end.

(** The events of a backend that delivers the texts of [ts] and then ends
    with [ending]. *)
Definition texts_then (ts : list string) (ending : stream_event) : list stream_event :=
  (Chunk <$> (text_frame <$> ts)) ++ [ending].

End Streams.

(** ** More of Python's string primitives *)

Module PyStrMore.
Import PyStr.

(** [s.endswith(suffix)]. *)
Definition endswith (suffix s : string) : bool :=
  (String.length suffix <=? String.length s)%nat &&
  String.eqb (drop (String.length s - String.length suffix) s) suffix.

(** [s.rstrip(c)] for a single character [c]. *)
Fixpoint rstrip_char (c : ascii) (s : string) : string :=
  match s with
  | EmptyString => EmptyString
  | String a s' =>
      match rstrip_char c s' with
      | EmptyString => if Ascii.eqb a c then EmptyString else String a EmptyString
      | r => String a r
      end
  end.

(** [s.replace(old, new)] for a non-empty [old]: the occurrences of [old]
    are replaced from left to right, without overlap. [skip] counts the
    characters of an occurrence still to pass over. *)
Fixpoint replace_from (old new : string) (skip : nat) (s : string) : string :=
  match s with
  | EmptyString => EmptyString
  | String a s' =>
      match skip with
      | S k => replace_from old new k s'
      | O =>
          if startswith old s
          then new +:+ replace_from old new (String.length old - 1) s'
          else String a (replace_from old new 0 s')
      end
  end.

Definition replace (old new s : string) : string := replace_from old new 0 s.

(** The character [c], [k] times. *)
Fixpoint repeat_char (c : ascii) (k : nat) : string :=
  match k with
  | O => EmptyString
  | S k' => String c (repeat_char c k')
  end.

End PyStrMore.

(** ** config.py *)

Module Config.
Import PyStr PyStrMore.

(** [OLLAMA_API_URL], from the environment: the trailing slashes are
    stripped, and when what is left ends with [/api/generate], every
    occurrence of that path is removed. *)
Definition OLLAMA_API_URL (environ : gmap string string) : string :=
  let ollama_url :=
    rstrip_char "/" (default "http://localhost:11434" (environ !! "OLLAMA_API_URL")) in
  if endswith "/api/generate" ollama_url
  then replace "/api/generate" EmptyString ollama_url
  else ollama_url.

End Config.

(** ** services/llm_service.py: the answer in one piece *)

Module LlmAnswer.
Import PyStr PyStrMore LlmService.

(** The URL [generate_answer] and [generate_answer_streaming] post to. *)
Definition generate_url (api_url : string) : string :=
  if endswith "/api/generate" api_url then api_url else api_url +:+ "/api/generate".

(** The request [generate_answer] sends. *)
Record answer_request := {
  answer_url : string;
  answer_model : string;
  answer_prompt : string;
  answer_num_predict : Z;
  answer_timeout : Z }.

(** The body of the backend's reply, as [response.json()] and
    [result.get("response", "")] read it. *)
Inductive answer_body :=
| Unreadable                     (* response.json() raises *)
| NotAnObject                    (* valid JSON, but not an object *)
| Reply (response : option response_value).

(** What [client.post] and [raise_for_status] do. *)
Inductive answer_outcome :=
| Answered (status_code : Z) (body : answer_body)
| AnswerRequestFailed            (* httpx.RequestError *)
| AnswerFailed.                  (* any other Exception *)

(** [generate_answer(query, search_results)] on a dict of results: the
    request it sends and the answer it returns. [post] is the backend. *)
Definition generate_answer (api_url model : string)
    (post : answer_request -> answer_outcome) (query : string) (sr : search_results)
  : answer_request * string :=
  let request :=
    {| answer_url := generate_url api_url;
       answer_model := model;
       answer_prompt := format_optimized_prompt query sr;
       answer_num_predict := 1024;
       answer_timeout := 300 |} in
  (request,
   match post request with
   | Answered status_code body =>
       if SearchService.is_success status_code then
         match body with
         | Reply response =>
             match default (RText EmptyString) response with
             | RText answer =>
                 if negb (truthy answer) || (len (strip answer) <? 10)
                 then fallback_answer query
                 else answer
             | ROther _ => fallback_answer query
             end
         | Unreadable | NotAnObject => fallback_answer query
         end
       else fallback_answer query
   | AnswerRequestFailed | AnswerFailed => fallback_answer query
   end).

End LlmAnswer.

(** ** routes.py: the health check *)

Module Health.
Import PyStr PyStrMore LlmService.

(** The probe of the LLM backend: the name of each model it lists
    ([None] for a model without a name), or the text of the exception. *)
Inductive tags_outcome :=
| TagsListed (names : list (option string))
| TagsFailed (text : string).

(** The probe of the search backend. *)
Inductive probe_outcome :=
| ProbeOk
| ProbeFailed (text : string).

(** One entry of [services]; the latency is a clock reading and is left
    out. *)
Record service := {
  status : string;
  detail : string }.

(** [HealthCheckResponse], without its timestamp. *)
Record HealthCheckResponse := {
  overall_status : string;
  services : gmap string service }.

(** The URL of the probe of the LLM backend. *)
Definition tags_url (api_url : string) : string :=
  if endswith "/api/tags" api_url then api_url else api_url +:+ "/api/tags".

(** [health_check()], given what the two probes find and the size of
    [search_cache]. *)
Definition health_check (OLLAMA_MODEL : string) (tags : tags_outcome)
    (search : probe_outcome) (cache_size : nat) : HealthCheckResponse :=
  let overall_status := "healthy" in
  let '(ollama, overall_status) :=
    match tags with
    | TagsListed names =>
        let model_available :=
          existsb (fun name => bool_decide (name = Some OLLAMA_MODEL)) names in
        ({| status := if model_available then "healthy" else "degraded";
            detail := "Model " +:+ OLLAMA_MODEL +:+ " " +:+
                      (if model_available then "found" else "not found") |},
         if model_available then overall_status else "degraded")
    | TagsFailed text =>
        ({| status := "unhealthy"; detail := "Error: " +:+ text |}, "unhealthy")
    end in
  let '(search_api, overall_status) :=
    match search with
    | ProbeOk =>
        ({| status := "healthy"; detail := "Serper.dev API is responsive" |},
         overall_status)
    | ProbeFailed text =>
        ({| status := "unhealthy"; detail := "Error: " +:+ text |}, "unhealthy")
    end in
  {| overall_status := overall_status;
     services :=
       <["cache" := {| status := "healthy";
                       detail := pretty cache_size +:+ " items in cache" |}]>
       (<["search_api" := search_api]> (<["ollama" := ollama]> ∅)) |}.

(** How bad a status is. *)
Definition severity (status : string) : nat :=
  if bool_decide (status = "unhealthy") then 2
  else if bool_decide (status = "degraded") then 1
  else 0.

End Health.

(** ** routes.py: the life of a stream in the registry *)

Module Lifecycle.
Import PyStr LlmService Routes.

(** [request_id = stream_request.request_id or str(uuid.uuid4())] and
    [session_id = stream_request.session_id or request_id]. *)
Definition effective_request_id (stream_request : StreamRequest) (uuid : string) : string :=
  str_or (request_id stream_request) uuid.

Definition effective_session_id (stream_request : StreamRequest) (uuid : string) : string :=
  str_or (session_id stream_request) (effective_request_id stream_request uuid).

(** What [unified_endpoint] does to the registry at time [now], before it
    answers with the stream. *)
Definition track_stream (now : Z) (stream_request : StreamRequest) (uuid : string)
    (active_streams : gmap string stream_data) : gmap string stream_data :=
  register_stream now (effective_request_id stream_request uuid)
    (effective_session_id stream_request uuid) (query stream_request) active_streams.

(** What this program does to the registry: [unified_endpoint] tracks a
    stream, the background task of a response runs, a pass of the sweep
    runs. *)
Inductive registry_event :=
| Tracked (now : Z) (stream_request : StreamRequest) (uuid : string)
| Finished (request_id : string)
| Swept (now : Z).

Definition registry_step (active_streams : gmap string stream_data) (e : registry_event)
  : gmap string stream_data :=
  match e with
  | Tracked now stream_request uuid => track_stream now stream_request uuid active_streams
  | Finished request_id => completion_hook request_id active_streams
  | Swept now => cleanup_active_streams now active_streams
  end.

(** The registry after a history of such events, from the empty one the
    module starts with. *)
Definition registry_after (history : list registry_event) : gmap string stream_data :=
  foldl registry_step ∅ history.

(** One pass of [cleanup_cache] at time [now]. An entry of [search_cache]
    is read as the time its timestamp denotes, [None] when reading it
    raises. An exception leaves the pass before anything is removed;
    otherwise the entries older than 2 hours are removed. *)
Definition cache_entry_expired (now : Z) (timestamp : option Z) : bool :=
  match timestamp with
  | Some t => bool_decide (now - t > 2 * 60 * 60)
  | None => false
  end.

Definition cleanup_cache (now : Z) (search_cache : gmap string (option Z))
  : gmap string (option Z) :=
  if bool_decide (map_Forall (fun _ timestamp => is_Some timestamp) search_cache)
  then filter (fun kv => cache_entry_expired now kv.2 = false) search_cache
  else search_cache.

(** The envelope of the [chunk_id]-th non-empty chunk, and the status
    envelope that ends a generation. *)
Definition chunk_envelope (request_id session_id : string) (chunk_id : Z) (chunk : string)
  : sse :=
  format_sse request_id session_id "answer_chunk" (Text chunk)
    [("step", MStr "generation_chunk"); ("chunk_id", MInt chunk_id);
     ("tokens", MInt (count_words chunk))].

Definition generation_complete (request_id session_id : string)
    (total_tokens chunk_count : Z) : sse :=
  format_sse request_id session_id "status" (Text "Generation completed successfully")
    [("step", MStr "generation_complete"); ("total_tokens", MInt total_tokens);
     ("chunk_count", MInt chunk_count); ("is_complete", MBool true)].

(** The envelope that follows a search, the envelope of the result at
    [position], and the envelopes of the [except] branch of the
    generation phase. *)
Definition search_complete (request_id session_id : string) (result_count : Z) : sse :=
  format_sse request_id session_id "status" (Text "Search completed")
    [("step", MStr "search_complete"); ("result_count", MInt result_count)].

Definition result_envelope (request_id session_id : string) (position total : Z)
    (result : gmap string string) : sse :=
  format_sse request_id session_id "search_result" (Result result)
    [("position", MInt position); ("total", MInt total)].

Definition generation_error (request_id session_id : string) (e : py_exception)
  : list sse :=
  [format_sse request_id session_id "error" (Text ("Generation error: " +:+ text e))
     [("step", MStr "generation_error"); ("error_type", MStr (type_name e))];
   format_sse request_id session_id "answer_chunk"
     (Text "I apologize, but I encountered an error while generating your answer. Please try again.")
     [("step", MStr "fallback")]].

Definition no_content_fallback (request_id session_id : string) : sse :=
  format_sse request_id session_id "answer_chunk"
    (Text "I couldn't generate a specific answer based on the search results. Please try rephrasing your question.")
    [("step", MStr "fallback")].

(** What [min(None, n)] raises. *)
Definition min_type_error : py_exception :=
  {| type_name := "TypeError";
     text := "'<' not supported between instances of 'int' and 'NoneType'" |}.

(** The words of a list of chunks, counted. *)
Definition total_words (cs : list string) : Z :=
  foldr (fun chunk n => count_words chunk + n) 0 cs.

(** The envelope carries the identifiers of the stream (the end marker
    carries nothing). *)
Definition carries_ids (request_id session_id : string) (e : sse) : Prop :=
  match e with
  | Data m => msg_request_id m = request_id /\ msg_session_id m = session_id
  | DONE => True
  end.

End Lifecycle.

(** ** routes.py and services/llm_service.py: the stream and its generator *)

Module Pipeline.
Import PyStr LlmService Routes.

(** The fragments [generate_answer_streaming] has yielded when [fuel]
    events of its backend were read and its loop still goes on: the
    [yielded] of [stream_loop] where its fuel runs out. *)
Fixpoint yielded_within (fuel : nat) (max_iterations : Z) (b : backend) (i : nat)
    (st : gen_state) (yielded : list string) : list string :=
  match fuel with
  | O => yielded
  | S fuel' =>
      match b i with
      | Chunk f =>
          let '(out, st', c) := on_frame max_iterations f st in
          match c with
          | Continue => yielded_within fuel' max_iterations b (S i) st' (yielded ++ out)
          | Break | Raise => yielded ++ out
          end
      | EndOfStream | HttpxError | OtherError => yielded
      end
  end.

(** The unified stream, looked at when the generator's backend has
    delivered [fuel] events: the stream has ended, and these are all the
    envelopes it yielded; or it has yielded these envelopes and waits for
    the generator's next fragment. *)
Inductive stream_run :=
| Closed (stream : list sse)
| Waiting (stream : list sse).

Section Unified.

Variable settings : Settings.
Variable llm : generate_request -> backend.
Variable fuel : nat.
Variable stream_request : StreamRequest.
Variable request_id session_id : string.
Variable search : string -> search_outcome.
Variable registry_at : checkpoint -> gmap string stream_data.

(** [generate_unified_stream()] with [generate_answer_streaming] as its
    generator. While the generator's loop goes on, the stream forwards
    what was yielded so far, a check after each chunk, and waits. *)
Definition unified_stream : stream_run :=
  let opening :=
    [format_sse request_id session_id "status" (Text "Processing query")
       [("step", MStr "init")];
     format_sse request_id session_id "status" (Text "Searching the web...")
       [("step", MStr "search_start")]] in
  match search_phase stream_request request_id session_id search registry_at with
  | (found, None) => Closed (opening ++ found)
  | (found, Some results) =>
      if polled request_id registry_at BeforeGeneration then Closed (opening ++ found)
      else
        let started :=
          opening ++ found ++
          [format_sse request_id session_id "status" (Text "Generating answer...")
             [("step", MStr "generation_start")]] in
        match generation_of settings llm fuel (query stream_request) results
                MAX_LLM_ITERATIONS (timeout stream_request) with
        | Some run =>
            match generation_phase stream_request request_id session_id
                    (fun _ _ _ _ => run) registry_at results with
            | (answer, false) => Closed (started ++ answer)
            | (answer, true) =>
                Closed (started ++ answer ++
                        [format_sse request_id session_id "status"
                           (Text "Request completed") [("step", MStr "complete")];
                         DONE])
            end
        | None =>
            let payload :=
              generate_payload settings (query stream_request) results
                (timeout stream_request) in
            let so_far :=
              yielded_within fuel MAX_LLM_ITERATIONS (llm payload) 0 initial_state [] in
            match stream_chunks request_id session_id registry_at 0 0 0 false so_far with
            | (answer, None) => Closed (started ++ answer)
            | (answer, Some _) => Waiting (started ++ answer)
            end
        end
  end.

End Unified.

End Pipeline.

(** ** More scenarios *)

Module MoreScenarios.
Import PyStr LlmService Routes Scenarios.

(** The request of [request0] with another cap on the results shown. *)
Definition request_capped (cap : option Z) : StreamRequest :=
  {| query := "capital of France"; request_id := Some "r-1"; session_id := None;
     model := None; language := Some "en"; max_search_results := cap;
     temperature := Some 0.7%Q; max_tokens := Some 2048; top_p := Some 0.9%Q;
     top_k := Some 40; timeout := Some 180 |}.

(** A backend that delivers an answer in two texts, the sentinel at the
    end of the second, and the generator on it as the orchestrator's
    collaborator. *)
Definition two_texts : generate_request -> backend :=
  fun _ => backend_of_frames
             [text_frame "Paris is the capital"; text_frame " of France.END OF RESPONSE"].

Definition two_texts_generation
  : string -> search_results -> Z -> option Z -> generation :=
  fun _ _ _ _ => {| chunks := ["Paris is the capital"; " of France."]; raised := None |}.

(** A backend that never signals done and never stops: three texts, with
    a line that is not JSON after the first and a frame with an empty
    response after the second, and the third text for ever after. *)
Definition paced_backend : backend :=
  fun n => match n with
           | 0%nat => Chunk (text_frame "Rome")
           | 1%nat => Chunk Malformed
           | 2%nat => Chunk (text_frame " is")
           | 3%nat => Chunk (Object false (Some (RText EmptyString)))
           | _ => Chunk (text_frame " old")
           end.

(** A generator that yields a chunk, an empty chunk and a chunk, and then
    raises. *)
Definition broken_generation : string -> search_results -> Z -> option Z -> generation :=
  fun _ _ _ _ =>
    {| chunks := ["Paris"; EmptyString; " is the capital."];
       raised := Some {| type_name := "RuntimeError"; text := "connection lost" |} |}.

(** The registry of a stream whose entry is there while the results are
    shown and is removed by the completion hook, marked as it was, when
    the generation is about to begin. *)
Definition entry_removed_midway : checkpoint -> gmap string stream_data :=
  fun c => match c with
           | AfterSearch | BeforeResult _ => registered
           | BeforeGeneration | AfterChunk _ => completion_hook "r-1" marked
           end.



End MoreScenarios.

(** ** Tactics *)

(** Comparisons and connectives on booleans in the hypotheses, turned into
    propositions for [lia]. *)
Ltac flags_to_Z :=
  repeat match goal with
  | H : (_ <? _) = true |- _ => apply Z.ltb_lt in H
  | H : (_ <? _) = false |- _ => apply Z.ltb_ge in H
  | H : (_ >? _) = true |- _ => apply Z.gtb_lt in H
  | H : (_ >=? _) = true |- _ => rewrite Z.geb_leb in H; apply Z.leb_le in H
  | H : (_ >=? _) = false |- _ => rewrite Z.geb_leb in H; apply Z.leb_gt in H
  | H : _ && _ = true |- _ => apply andb_true_iff in H as [??]
  | H : negb _ = true |- _ => apply negb_true_iff in H
  | H : negb _ = false |- _ => apply negb_false_iff in H
  end.

(** * Facts *)

(** ** Python's string primitives *)

Module PyStrFacts.
Import PyStr.

Lemma str_app_nil_l (s : string) : EmptyString +:+ s = s.
Proof. reflexivity. Qed.

Lemma str_app_cons (a : ascii) (s t : string) : String a s +:+ t = String a (s +:+ t).
Proof. reflexivity. Qed.

Lemma str_app_nil_r (s : string) : s +:+ EmptyString = s.
Proof. induction s as [|a s IH]; [reflexivity|]. rewrite str_app_cons. by rewrite IH. Qed.

Lemma str_app_assoc (s t u : string) : (s +:+ t) +:+ u = s +:+ (t +:+ u).
Proof.
  induction s as [|a s IH]; [reflexivity|].
  rewrite !str_app_cons. by rewrite IH.
Qed.

Lemma str_length_app (s t : string) :
  String.length (s +:+ t) = (String.length s + String.length t)%nat.
Proof.
  induction s as [|a s IH]; [reflexivity|].
  rewrite str_app_cons. simpl. by rewrite IH.
Qed.

Lemma len_nonneg (s : string) : 0 <= len s.
Proof. unfold len. lia. Qed.

Lemma len_app (s t : string) : len (s +:+ t) = len s + len t.
Proof. unfold len. rewrite str_length_app. lia. Qed.

Lemma truthy_len (s : string) : truthy s = true <-> 0 < len s.
Proof. destruct s; unfold len; simpl; split; intros; try done; lia. Qed.


Lemma str_take_drop (n : nat) (s : string) : take n s +:+ drop n s = s.
Proof.
  revert s. induction n as [|n IH]; intros [|a s]; simpl; try reflexivity.
  rewrite str_app_cons. by rewrite IH.
Qed.

Lemma str_take_app_exact (s t : string) : take (String.length s) (s +:+ t) = s.
Proof.
  induction s as [|a s IH]; [by destruct t|].
  rewrite str_app_cons. simpl. by rewrite IH.
Qed.

Lemma slice_from_0 (s : string) : slice_from s 0 = s.
Proof.
  unfold slice_from, slice_bound. simpl.
  pose proof (len_nonneg s). by rewrite Z.min_l.
Qed.

Lemma slice_to_0 (s : string) : slice_to s 0 = EmptyString.
Proof.
  unfold slice_to, slice_bound. simpl.
  pose proof (len_nonneg s). by rewrite Z.min_l.
Qed.

Lemma find_ge (sub s : string) : -1 <= find sub s.
Proof. unfold find. destruct (find_index sub s); lia. Qed.

Lemma find_index_contains (sub s : string) :
  contains sub s = match find_index sub s with Some _ => true | None => false end.
Proof.
  induction s as [|a s IH]; simpl.
  - by destruct (startswith sub EmptyString).
  - destruct (startswith sub (String a s)); simpl; [done|].
    rewrite IH. by destruct (find_index sub s).
Qed.

(** [find] and [in] agree. *)
Lemma find_contains (sub s : string) :
  contains sub s = negb (find sub s =? -1).
Proof.
  rewrite find_index_contains. unfold find.
  destruct (find_index sub s) as [n|]; [|done].
  symmetry. apply negb_true_iff, Z.eqb_neq. lia.
Qed.

Lemma startswith_app (sub s t : string) :
  startswith sub s = true -> startswith sub (s +:+ t) = true.
Proof.
  revert s. induction sub as [|a sub IH]; intros s H; [done|].
  destruct s as [|b s]; [done|].
  rewrite str_app_cons. simpl in *. destruct (Ascii.eqb a b); [by apply IH|done].
Qed.

(** What a text contains, every extension of it contains. *)
Lemma contains_app (sub s t : string) :
  contains sub s = true -> contains sub (s +:+ t) = true.
Proof.
  induction s as [|a s IH].
  - rewrite str_app_nil_l. simpl. rewrite orb_false_r. intros H.
    destruct sub; [|done]. by destruct t.
  - rewrite str_app_cons. simpl. intros [H|H]%orb_true_iff; apply orb_true_iff.
    + left. by apply (startswith_app sub (String a s) t).
    + right. by apply IH.
Qed.

Lemma lower_app (s t : string) : lower (s +:+ t) = lower s +:+ lower t.
Proof.
  induction s as [|a s IH]; [reflexivity|].
  rewrite str_app_cons. simpl. rewrite str_app_cons. by rewrite IH.
Qed.

Lemma concat_snoc (l : list string) (s : string) : concat (l ++ [s]) = concat l +:+ s.
Proof.
  induction l as [|x l IH]; simpl.
  - unfold concat. simpl. by rewrite str_app_nil_r.
  - unfold concat in *. simpl. rewrite IH. by rewrite str_app_assoc.
Qed.

End PyStrFacts.

(** ** The streaming generator *)

Module LlmServiceFacts.
Import PyStr PyStrFacts LlmService Scenarios MoreScenarios.

Lemma find_end_token_empty : find end_token EmptyString = -1.
Proof. reflexivity. Qed.

(** More fuel does not change a finished run of the loop. *)
Lemma stream_loop_fuel (fuel fuel' : nat) (mi : Z) (b : backend) (i : nat)
    (st : gen_state) (acc : list string) r :
  stream_loop fuel mi b i st acc = Some r -> (fuel <= fuel')%nat ->
  stream_loop fuel' mi b i st acc = Some r.
Proof.
  revert fuel' i st acc. induction fuel as [|fuel IH]; intros fuel' i st acc; [done|].
  intros H Hle. destruct fuel' as [|fuel']; [lia|].
  simpl in *. destruct (b i) as [f| | |]; try done.
  destruct (on_frame mi f st) as [[out st'] c]. destruct c; try done.
  apply IH; [done|lia].
Qed.

(** The loop body sets [has_yielded] only when it yields. *)
Lemma on_frame_yielded (mi : Z) (f : frame) (st st' : gen_state) (out : list string) c :
  on_frame mi f st = (out, st', c) ->
  has_yielded st' = true -> has_yielded st = true \/ out <> [].
Proof.
  unfold on_frame, on_text.
  intros H Hy. repeat case_match; simplify_eq/=; auto.
Qed.

(** Once [has_yielded] is set, something was yielded. *)
Lemma stream_loop_yielded (fuel : nat) (mi : Z) (b : backend) (i : nat)
    (st st' : gen_state) (acc out : list string) e :
  stream_loop fuel mi b i st acc = Some (out, st', e) ->
  (has_yielded st = true -> acc <> []) ->
  has_yielded st' = true -> out <> [].
Proof.
  revert i st acc. induction fuel as [|fuel IH]; intros i st acc; [done|].
  simpl. destruct (b i) as [f| | |]; try (intros; simplify_eq; auto; fail).
  destruct (on_frame mi f st) as [[o st1] c] eqn:Hf.
  assert ((has_yielded st = true -> acc <> []) ->
          has_yielded st1 = true -> acc ++ o <> []) as Hstep.
  { intros Hacc Hy Hnil. apply app_eq_nil in Hnil as [-> ->].
    destruct (on_frame_yielded _ _ _ _ _ _ Hf Hy) as [?|?]; [|done].
    by apply Hacc. }
  destruct c; intros H Hacc Hy.
  - eapply IH; [exact H| |exact Hy]. by apply Hstep.
  - simplify_eq. by apply Hstep.
  - simplify_eq. by apply Hstep.
Qed.

Lemma delivered_S (b : backend) (n : nat) :
  delivered b (S n) =
  delivered b n ++ match event_text (b n) with Some t => [t] | None => [] end.
Proof.
  unfold delivered. rewrite seq_S, omap_app. simpl.
  by destruct (event_text (b n)).
Qed.

(** A pass of the loop body after which the loop goes on: either the frame
    brought no text and nothing changed, or its text was yielded as it is,
    the sentinel is not in the buffer, and the cap is not reached. *)
Lemma on_frame_continue (mi : Z) (f : frame) (st st' : gen_state) (out : list string) :
  on_frame mi f st = (out, st', Continue) ->
  match event_text (Chunk f) with
  | None => st' = st /\ out = []
  | Some t =>
      out = [t] /\ buffer st' = buffer st +:+ t /\
      iterations st' = iterations st + 1 /\
      find end_token (buffer st') = -1 /\ iterations st' < mi /\
      has_yielded st' = true
  end.
Proof.
  unfold on_frame, on_text, event_text. intros H.
  repeat case_match; simplify_eq/=; auto.
  repeat split; auto.
  - match goal with H : negb _ = false |- _ =>
      apply negb_false_iff, Z.eqb_eq in H; exact H end.
  - match goal with H : (_ >=? _) = false |- _ =>
      rewrite Z.geb_leb in H; apply Z.leb_gt in H; exact H end.
Qed.

(** An event that ends the loop does so in one pass. *)
Lemma stream_loop_ends (mi : Z) (b : backend) (n : nat) (st : gen_state)
    (acc : list string) :
  ends_stream (b n) = true -> exists r, stream_loop 1 mi b n st acc = Some r.
Proof.
  simpl. destruct (b n) as [f| | |]; simpl; eauto.
  intros H. destruct f as [| |[] [[]|]]; simpl in *; eauto; try done.
  destruct truth; eauto. done.
Qed.

(** After [n] events the loop has either finished, or it is at event [n]
    with the delivered texts in its buffer, no sentinel in them, and the
    cap not reached. *)
Lemma stream_loop_progress (mi : Z) (b : backend) (n : nat) :
  (exists r, stream_loop n mi b 0 initial_state [] = Some r) \/
  (exists st acc,
     (forall fuel, stream_loop (n + fuel) mi b 0 initial_state [] =
                   stream_loop fuel mi b n st acc) /\
     buffer st = concat (delivered b n) /\
     iterations st = Z.of_nat (length (delivered b n)) /\
     find end_token (buffer st) = -1 /\
     (delivered b n = [] \/ iterations st < mi)).
Proof.
  induction n as [|n IH].
  { right. exists initial_state, []. repeat split; auto. }
  destruct IH as [[r Hr]|(st & acc & Hrun & Hbuf & Hit & Hfind & Hcap)].
  { left. exists r. eapply stream_loop_fuel; [exact Hr|lia]. }
  assert (forall fuel, stream_loop (S n + fuel) mi b 0 initial_state [] =
                       stream_loop (S fuel) mi b n st acc) as Hrun'.
  { intros fuel. rewrite <- Hrun. f_equal. lia. }
  destruct (b n) as [f| | |] eqn:Hb.
  2-4: left; specialize (Hrun' 0%nat); rewrite Nat.add_0_r in Hrun';
       rewrite Hrun'; simpl; rewrite Hb; eauto.
  destruct (on_frame mi f st) as [[out st'] c] eqn:Hf.
  destruct c.
  - right. exists st', (acc ++ out). split.
    { intros fuel. rewrite Hrun'. simpl. by rewrite Hb, Hf. }
    apply on_frame_continue in Hf. rewrite delivered_S, Hb.
    destruct (event_text (Chunk f)) as [t|].
    + destruct Hf as (-> & Hbuf' & Hit' & Hfind' & Hcap' & _).
      rewrite concat_snoc, length_app, <- Hbuf. simpl.
      repeat split; auto; lia.
    + destruct Hf as [-> ->]. rewrite app_nil_r. auto.
  - left. specialize (Hrun' 0%nat). rewrite Nat.add_0_r in Hrun'.
    rewrite Hrun'. simpl. rewrite Hb, Hf. eauto.
  - left. specialize (Hrun' 0%nat). rewrite Nat.add_0_r in Hrun'.
    rewrite Hrun'. simpl. rewrite Hb, Hf. eauto.
Qed.

(** What the loop keeps true while it goes on: the fragments yielded are
    as many as the iterations counted, [has_yielded] is set once there is
    one, and the cap is not reached. *)
Lemma on_frame_counts (mi : Z) (f : frame) (st st' : gen_state) (acc out : list string) :
  on_frame mi f st = (out, st', Continue) ->
  Z.of_nat (length acc) = iterations st ->
  (has_yielded st = true <-> 0 < iterations st) ->
  (iterations st = 0 \/ iterations st < mi) ->
  Z.of_nat (length (acc ++ out)) = iterations st' /\
  (has_yielded st' = true <-> 0 < iterations st') /\
  (iterations st' = 0 \/ iterations st' < mi).
Proof.
  intros Hf Hlen Hy Hcap. apply on_frame_continue in Hf.
  destruct (event_text (Chunk f)) as [t|].
  - destruct Hf as (-> & Hbuf & Hit & Hfind & Hcap' & Hy'). rewrite length_app. simpl.
    repeat split; try lia. done.
  - destruct Hf as [-> ->]. by rewrite app_nil_r.
Qed.

(** The fragments that follow the loop, counted. *)
Lemma after_loop_bound (query : string) (mi : Z) (st : gen_state) (e : loop_exit)
    (acc : list string) :
  Z.of_nat (length acc) = iterations st ->
  (has_yielded st = true <-> 0 < iterations st) ->
  (iterations st = 0 \/ iterations st < mi) ->
  Z.of_nat (length (acc ++ after_loop query mi st e)) <= Z.max 1 mi + 2.
Proof.
  intros Hlen [Hy1 Hy2] Hcap. unfold after_loop. rewrite !length_app.
  destruct (has_yielded st) eqn:Hy.
  - specialize (Hy1 eq_refl). destruct e; repeat case_match; simpl; lia.
  - assert (iterations st = 0) as H0.
    { destruct (Z.lt_total 0 (iterations st)) as [Hpos|[?|?]]; [|done|lia].
      by specialize (Hy2 Hpos). }
    destruct e; repeat case_match; simpl; lia.
Qed.

(** The same when a frame makes the loop stop. *)
Lemma on_frame_exit_bound (query : string) (mi : Z) (f : frame) (st st' : gen_state)
    (acc out : list string) (c : control) :
  on_frame mi f st = (out, st', c) -> c <> Continue ->
  Z.of_nat (length acc) = iterations st ->
  (has_yielded st = true <-> 0 < iterations st) ->
  (iterations st = 0 \/ iterations st < mi) ->
  Z.of_nat (length ((acc ++ out) ++
                    after_loop query mi st'
                      (match c with Raise => Crashed | _ => Completed end)))
  <= Z.max 1 mi + 2.
Proof.
  intros Hf Hc Hlen Hy Hcap.
  assert (out = [] /\ st' = st \/
          (exists t, f = text_frame t /\ truthy t = true /\
                     on_text mi t st = (out, st', c))) as [[-> ->]|(t & -> & Ht & Ht')].
  { unfold on_frame in Hf. repeat case_match; simplify_eq; eauto. }
  { rewrite app_nil_r. by apply after_loop_bound. }
  clear Hf. unfold on_text in Ht'. destruct Hy as [Hy1 Hy2].
  assert (has_yielded st = false -> iterations st = 0) as Hy3.
  { intros Hn. destruct (Z.lt_total 0 (iterations st)) as [Hpos|[?|?]]; [|done|lia].
    specialize (Hy2 Hpos). congruence. }
  unfold after_loop.
  repeat case_match; simplify_eq/=; flags_to_Z;
    rewrite ?length_app; simpl; rewrite ?length_app; simpl;
    try (destruct (has_yielded st) eqn:Hyy;
         [specialize (Hy1 eq_refl)|specialize (Hy3 eq_refl)]);
    simplify_eq/=; try lia.
Qed.

Lemma stream_loop_bound (query : string) (fuel : nat) (mi : Z) (b : backend) (i : nat)
    (st st' : gen_state) (acc out : list string) (e : loop_exit) :
  stream_loop fuel mi b i st acc = Some (out, st', e) ->
  Z.of_nat (length acc) = iterations st ->
  (has_yielded st = true <-> 0 < iterations st) ->
  (iterations st = 0 \/ iterations st < mi) ->
  Z.of_nat (length (out ++ after_loop query mi st' e)) <= Z.max 1 mi + 2.
Proof.
  revert i st acc. induction fuel as [|fuel IH]; intros i st acc; [done|].
  simpl. destruct (b i) as [f| | |].
  2-4: intros; simplify_eq; by apply after_loop_bound.
  destruct (on_frame mi f st) as [[o st1] c] eqn:Hf.
  destruct c; intros H Hlen Hy Hcap.
  - destruct (on_frame_counts _ _ _ _ acc _ Hf Hlen Hy Hcap) as (? & ? & ?).
    by eapply IH.
  - simplify_eq. by apply (on_frame_exit_bound query _ _ _ _ _ _ _ Hf).
  - simplify_eq. by apply (on_frame_exit_bound query _ _ _ _ _ _ _ Hf).
Qed.

(** What follows the loop makes the answer non-empty. *)
Lemma after_loop_nonempty (query : string) (mi : Z) (st : gen_state) (e : loop_exit)
    (yielded : list string) :
  (has_yielded st = true -> yielded <> []) ->
  yielded ++ after_loop query mi st e <> [].
Proof.
  intros Hy Hnil. apply app_eq_nil in Hnil as [-> Hnil].
  unfold after_loop in Hnil. apply app_eq_nil in Hnil as [_ Hnil].
  destruct (has_yielded st); [by apply Hy|done].
Qed.

(** C2, as amended. For every query and every backend in which, within
    finitely many events, the stream ends (it closes, fails, signals done
    or sends an ill-shaped frame), or the sentinel shows up in the texts
    delivered, or as many texts as the iteration cap asks for (at least
    one) are delivered: the generator finishes, its answer is the same
    for every larger fuel, and the answer has at least one fragment and at
    most two more than the iteration cap (three when the cap is below 1). *)
Theorem generation_finite_nonempty (settings : Settings)
    (llm : generate_request -> backend) (query : string) (sr : search_results)
    (max_iterations : Z) (timeout : option Z) (n : nat) :
  let b := llm (generate_payload settings query sr timeout) in
  ends_stream (b n) = true \/
  find end_token (concat (delivered b n)) <> -1 \/
  Z.max 1 max_iterations <= Z.of_nat (length (delivered b n)) ->
  exists fuel out,
    (forall fuel', (fuel <= fuel')%nat ->
       generate_answer_streaming settings llm fuel' query sr max_iterations timeout
       = Some out) /\
    out <> [] /\
    Z.of_nat (length out) <= Z.max 1 max_iterations + 2.
Proof.
  intros b Hstop.
  assert (exists fuel r, stream_loop fuel max_iterations b 0 initial_state [] = Some r)
    as (fuel & [[yielded st] e] & Hr).
  { destruct (stream_loop_progress max_iterations b n)
      as [[r Hr]|(st & acc & Hrun & Hbuf & Hit & Hfind & Hcap)]; [eauto|].
    destruct Hstop as [Hend|[Hsent|Hmax]].
    - destruct (stream_loop_ends max_iterations b n st acc Hend) as [r Hr].
      exists (n + 1)%nat, r. by rewrite Hrun.
    - rewrite <- Hbuf in Hsent. done.
    - destruct Hcap as [Hnil|Hlt]; [rewrite Hnil in Hmax; simpl in Hmax; lia|lia]. }
  exists fuel, (yielded ++ after_loop query max_iterations st e).
  split; [|split].
  - intros fuel' Hle. unfold generate_answer_streaming. fold b.
    by rewrite (stream_loop_fuel _ _ _ _ _ _ _ _ Hr Hle).
  - apply after_loop_nonempty.
    by apply (stream_loop_yielded _ _ _ _ _ _ _ _ _ Hr).
  - apply (stream_loop_bound query _ _ _ _ _ _ _ _ _ Hr); simpl; [done| |by left].
    split; [done|lia].
Qed.

Lemma generation_finite_nonempty_witness :
  exists fuel out,
    (forall fuel', (fuel <= fuel')%nat ->
       generate_answer_streaming settings0 (fun _ => backend_of_frames [text_frame "Paris."])
         fuel' "capital of France" no_results 100 None = Some out) /\
    out <> [] /\
    Z.of_nat (length out) <= Z.max 1 100 + 2.
Proof.
  apply (generation_finite_nonempty settings0
           (fun _ => backend_of_frames [text_frame "Paris."])
           "capital of France" no_results 100 None 1).
  left. reflexivity.
Defined.

Lemma blank_backend_loops (fuel : nat) (mi : Z) (i : nat) (st : gen_state)
    (acc : list string) :
  stream_loop fuel mi blank_backend i st acc = None.
Proof.
  revert i acc. induction fuel as [|fuel IH]; intros i acc; [done|].
  simpl. rewrite app_nil_r. apply IH.
Qed.

(** A backend that goes on sending frames with an empty response, and
    never signals done, keeps the generator in its loop for ever: no
    amount of fuel gives an answer, with 100 as the iteration cap. *)
Lemma generation_never_ends_on_blank_backend :
  ~ exists fuel out,
      generate_answer_streaming settings0 (fun _ => blank_backend) fuel
        "capital of France" no_results 100 None = Some out.
Proof.
  intros (fuel & out & H). unfold generate_answer_streaming in H.
  by rewrite blank_backend_loops in H.
Qed.

(** The loop body on a text that neither completes the sentinel, nor
    holds a completion indicator, nor reaches the cap: the text is yielded
    and the loop goes on. *)
Lemma on_text_plain (mi : Z) (t : string) (st : gen_state) :
  contains end_token (buffer st +:+ t) = false ->
  iterations st + 1 < mi ->
  natural_completion_detected st = false ->
  existsb (fun indicator => contains (lower indicator) (lower (buffer st +:+ t)))
          completion_indicators = false ->
  on_text mi t st =
  ([t],
   {| has_yielded := true; buffer := buffer st +:+ t;
      iterations := iterations st + 1;
      natural_completion_detected := false |},
   Continue).
Proof.
  intros Hsent Hcap Hncd Hind. unfold on_text.
  rewrite find_contains in Hsent. rewrite Hsent, Hncd, Hind.
  assert ((iterations st + 1 >=? mi) = false) as ->; [|done].
  rewrite Z.geb_leb. apply Z.leb_gt. lia.
Qed.

(** The loop body on such a text when it reaches the cap: the text and
    the closing sentence are yielded, and the loop is left. *)
Lemma on_text_cap (mi : Z) (t : string) (st : gen_state) :
  contains end_token (buffer st +:+ t) = false ->
  mi <= iterations st + 1 ->
  natural_completion_detected st = false ->
  existsb (fun indicator => contains (lower indicator) (lower (buffer st +:+ t)))
          completion_indicators = false ->
  on_text mi t st =
  ([t; closing],
   {| has_yielded := true; buffer := buffer st +:+ t;
      iterations := iterations st + 1;
      natural_completion_detected := false |},
   Break).
Proof.
  intros Hsent Hcap Hncd Hind. unfold on_text.
  rewrite find_contains in Hsent. rewrite Hsent, Hncd, Hind.
  assert ((iterations st + 1 >=? mi) = true) as ->; [|done].
  rewrite Z.geb_leb. apply Z.leb_le. lia.
Qed.

(** No indicator in a text means no indicator in what it begins with. *)
Lemma no_indicator_prefix (s t : string) :
  existsb (fun indicator => contains (lower indicator) (lower (s +:+ t)))
          completion_indicators = false ->
  existsb (fun indicator => contains (lower indicator) (lower s))
          completion_indicators = false.
Proof.
  intros H. apply not_true_is_false. intros Hs. apply not_true_iff_false in H.
  apply H. apply existsb_exists in Hs as (x & Hx & Hc).
  apply existsb_exists. exists x. split; [done|].
  rewrite lower_app. by apply contains_app.
Qed.

Lemma no_sentinel_prefix (s t : string) :
  contains end_token (s +:+ t) = false -> contains end_token s = false.
Proof.
  intros H. apply not_true_is_false. intros Hs. apply not_true_iff_false in H.
  apply H. by apply contains_app.
Qed.

(** The texts among the first [n] events of a backend end with the text
    of one of these events. *)
Lemma delivered_last (b : backend) (n : nat) (ts : list string) (t : string) :
  delivered b n = ts ++ [t] ->
  exists m, (m < n)%nat /\ delivered b m = ts /\ event_text (b m) = Some t.
Proof.
  induction n as [|n IH]; intros Hd.
  { by destruct ts. }
  rewrite delivered_S in Hd. destruct (event_text (b n)) as [t'|] eqn:He.
  - apply app_inj_tail in Hd as [Hts ->]. exists n. repeat split; [lia|done|done].
  - rewrite app_nil_r in Hd. destruct (IH Hd) as (m & Hm & Hdm & Hem).
    exists m. repeat split; [lia|done|done].
Qed.

(** The loop over events none of which ends the stream, while the texts
    they bring stay below the cap and hold neither the sentinel nor a
    completion indicator: each text is yielded as it is, the events
    without a text are passed over, and after [n] events the loop is at
    event [n] with these texts in its buffer. *)
Lemma stream_loop_delivers (mi : Z) (b : backend) (n : nat) :
  (forall i, (i < n)%nat -> ends_stream (b i) = false) ->
  Z.of_nat (length (delivered b n)) < mi ->
  contains end_token (concat (delivered b n)) = false ->
  existsb (fun indicator => contains (lower indicator) (lower (concat (delivered b n))))
          completion_indicators = false ->
  forall fuel,
    stream_loop (n + fuel) mi b 0 initial_state [] =
    stream_loop fuel mi b n
      {| has_yielded := match delivered b n with [] => false | _ :: _ => true end;
         buffer := concat (delivered b n);
         iterations := Z.of_nat (length (delivered b n));
         natural_completion_detected := false |}
      (delivered b n).
Proof.
  induction n as [|n IH]; intros Halive Hcap Hsent Hind fuel; [done|].
  assert (ends_stream (b n) = false) as Hn by (apply Halive; lia).
  assert (forall i, (i < n)%nat -> ends_stream (b i) = false) as Halive'
    by (intros i Hi; apply Halive; lia).
  replace (S n + fuel)%nat with (n + S fuel)%nat by lia.
  rewrite delivered_S in *.
  destruct (event_text (b n)) as [t|] eqn:He.
  - rewrite concat_snoc in Hsent, Hind. rewrite length_app in Hcap. simpl in Hcap.
    rewrite IH;
      [|done|lia|by apply (no_sentinel_prefix _ t)|by apply (no_indicator_prefix _ t)].
    simpl. destruct (b n) as [f| | |]; try done.
    destruct f as [| |[] [[t'|[]]|]]; simpl in He; try done.
    destruct (truthy t') eqn:Ht; [|done]. injection He as ->.
    simpl. rewrite Ht.
    rewrite on_text_plain; simpl; [|done|lia|done|done].
    rewrite concat_snoc, length_app. simpl.
    replace (Z.of_nat (length (delivered b n) + 1)) with
      (Z.of_nat (length (delivered b n)) + 1) by lia.
    by destruct (delivered b n).
  - rewrite app_nil_r in *. rewrite IH; [|done..].
    simpl. destruct (b n) as [f| | |]; try done.
    destruct f as [| |[] [[t'|[]]|]]; simpl in *; try done; rewrite ?app_nil_r; try done.
    destruct (truthy t'); [done|]. by rewrite app_nil_r.
Qed.

(** C3, as amended. A backend that delivers three non-empty texts [t0],
    [t1], [t2] before any event that ends the loop (the stream closing or
    failing, a done signal, a frame that is not an object with a text),
    whatever frames without a text come before or between them; the three
    texts hold no sentinel and no completion indicator and are not white
    space altogether. With 3 as the iteration cap the generator yields the
    three texts and then the closing sentence, and nothing else, whatever
    the backend would send next. *)
Theorem iteration_cap_three (settings : Settings) (llm : generate_request -> backend)
    (query : string) (sr : search_results) (timeout : option Z)
    (t0 t1 t2 : string) (n fuel : nat) :
  let b := llm (generate_payload settings query sr timeout) in
  (forall i, (i < n)%nat -> ends_stream (b i) = false) ->
  delivered b n = [t0; t1; t2] ->
  contains end_token (t0 +:+ t1 +:+ t2) = false ->
  existsb (fun indicator => contains (lower indicator) (lower (t0 +:+ t1 +:+ t2)))
          completion_indicators = false ->
  truthy (strip (t0 +:+ t1 +:+ t2)) = true ->
  (n <= fuel)%nat ->
  generate_answer_streaming settings llm fuel query sr 3 timeout
  = Some [t0; t1; t2; closing].
Proof.
  intros b Halive Hd Hsent Hind Hws Hfuel.
  rewrite <- !str_app_assoc in Hsent, Hind, Hws.
  pose proof (no_sentinel_prefix _ _ Hsent) as Hsent1.
  pose proof (no_indicator_prefix _ _ Hind) as Hind1.
  destruct (delivered_last b n [t0; t1] t2 Hd) as (m & Hm & Hdm & Hem).
  unfold generate_answer_streaming. fold b.
  replace fuel with (m + (fuel - m))%nat by lia.
  rewrite (stream_loop_delivers 3 b m); rewrite ?Hdm;
    [|intros i Hi; apply Halive; lia|simpl; lia
     |unfold concat; simpl; by rewrite str_app_nil_r
     |unfold concat; simpl; by rewrite str_app_nil_r].
  unfold concat. simpl. rewrite str_app_nil_r.
  rewrite (stream_loop_fuel 1 (fuel - m) _ _ _ _ _
             ([t0; t1; t2; closing],
              {| has_yielded := true; buffer := (t0 +:+ t1) +:+ t2;
                 iterations := 3; natural_completion_detected := false |},
              Completed)); [|clear Hfuel|lia].
  - unfold after_loop. simpl. by rewrite Hws.
  - simpl. destruct (b m) as [f| | |]; try done.
    destruct f as [| |[] [[t'|[]]|]]; simpl in Hem; try done.
    destruct (truthy t') eqn:Ht; [|done]. injection Hem as ->.
    simpl. rewrite Ht.
    by rewrite on_text_cap; simpl; [|done|lia|done|done].
Qed.

Lemma iteration_cap_three_witness :
  generate_answer_streaming settings0 (fun _ => paced_backend)
    5 "capital of Italy" no_results 3 None
  = Some ["Rome"; " is"; " old"; closing].
Proof.
  apply (iteration_cap_three settings0 (fun _ => paced_backend)
           "capital of Italy" no_results None "Rome" " is" " old" 5 5);
    [|reflexivity|reflexivity|reflexivity|reflexivity|lia].
  intros i Hi. do 5 (destruct i as [|i]; [reflexivity|]). lia.
Defined.

(** A backend that never signals done, never sends the sentinel and
    delivers a space every time: with 3 as the iteration cap the generator
    yields the three spaces, the closing sentence and, since the buffer is
    white space, the fallback answer as a fifth fragment. *)
Lemma iteration_cap_spaces_fallback :
  generate_answer_streaming settings0 (fun _ => spaces_backend)
    3 "capital of France" no_results 3 None
  = Some [" "; " "; " "; closing; fallback_answer "capital of France"] /\
  ~ exists fuel,
      generate_answer_streaming settings0 (fun _ => spaces_backend)
        fuel "capital of France" no_results 3 None
      = Some [" "; " "; " "; closing].
Proof.
  split; [reflexivity|].
  intros [fuel H]. destruct fuel as [|[|[|fuel]]]; vm_compute in H; discriminate.
Qed.

(** C1, at the inputs where the code departs from it. The answer
    [Paris is the capital.END OF RESPONSE] delivered in two chunks, the cut
    [k] falling inside the sentinel: the generator yields the whole first
    chunk, the answer and the first [k - 21] characters of the sentinel,
    and nothing else. *)
Theorem sentinel_cut_inside_leaks (settings : Settings) (query : string)
    (sr : search_results) (timeout : option Z) (k : nat) :
  (22 <= k <= 35)%nat ->
  generate_answer_streaming settings (fun _ => paris_split k) 3 query sr 100 timeout
  = Some ["Paris is the capital." +:+ take (k - 21) end_token].
Proof.
  intros Hk.
  do 22 (destruct k as [|k]; [lia|]).
  do 14 (destruct k as [|k]; [reflexivity|]).
  lia.
Qed.

Lemma sentinel_cut_inside_leaks_witness :
  generate_answer_streaming settings0 (fun _ => paris_split 27) 3
    "capital of France" no_results 100 None
  = Some ["Paris is the capital.END OF"].
Proof.
  apply (sentinel_cut_inside_leaks settings0 "capital of France" no_results None 27).
  lia.
Defined.

(** The same answer cut before the sentinel begins, both chunks
    non-empty: the fragments yielded make up the answer and nothing else. *)
Theorem sentinel_cut_before_is_clean (settings : Settings) (query : string)
    (sr : search_results) (timeout : option Z) (k : nat) :
  (1 <= k <= 21)%nat ->
  exists out,
    generate_answer_streaming settings (fun _ => paris_split k) 3 query sr 100 timeout
    = Some out /\
    concat out = "Paris is the capital.".
Proof.
  intros Hk.
  destruct k as [|k]; [lia|].
  do 21 (destruct k as [|k]; [eexists; split; reflexivity|]).
  lia.
Qed.

Lemma sentinel_cut_before_is_clean_witness :
  exists out,
    generate_answer_streaming settings0 (fun _ => paris_split 6) 3
      "capital of France" no_results 100 None = Some out /\
    concat out = "Paris is the capital.".
Proof.
  apply (sentinel_cut_before_is_clean settings0 "capital of France" no_results None 6).
  lia.
Defined.

(** Events that neither bring a text nor end the stream leave the loop
    where it started. *)
Lemma stream_loop_skips (mi : Z) (b : backend) (n : nat) :
  delivered b n = [] ->
  (forall i, (i < n)%nat -> ends_stream (b i) = false) ->
  forall fuel,
    stream_loop (n + fuel) mi b 0 initial_state [] =
    stream_loop fuel mi b n initial_state [].
Proof.
  induction n as [|n IH]; intros Hnone Halive fuel; [done|].
  rewrite delivered_S in Hnone. apply app_eq_nil in Hnone as [Hnone Hn].
  replace (S n + fuel)%nat with (n + S fuel)%nat by lia.
  rewrite IH; [|done|intros i Hi; apply Halive; lia].
  specialize (Halive n (Nat.lt_succ_diag_r n)).
  simpl. destruct (b n) as [f| | |]; try done.
  destruct f as [| |[] [[t|[]]|]]; simpl in *; try done.
  by destruct (truthy t).
Qed.

(** C9. When the first text the backend delivers has the sentinel in it,
    and the text before the sentinel is not white space alone, the
    generator yields that text, stripped, then the fallback answer for the
    query, then the emergency apology: the sentinel path leaves
    [has_yielded] unset and the buffer empty. The frames before that text
    are frames the loop skips (malformed ones, or without a text). *)
Theorem sentinel_in_first_fragment (settings : Settings)
    (llm : generate_request -> backend) (query : string) (sr : search_results)
    (max_iterations : Z) (timeout : option Z) (text_chunk : string) (n fuel : nat) :
  let b := llm (generate_payload settings query sr timeout) in
  let answer := strip (slice_to text_chunk (find end_token text_chunk)) in
  delivered b n = [] ->
  (forall i, (i < n)%nat -> ends_stream (b i) = false) ->
  b n = Chunk (text_frame text_chunk) ->
  contains end_token text_chunk = true ->
  truthy answer = true ->
  (n + 1 <= fuel)%nat ->
  generate_answer_streaming settings llm fuel query sr max_iterations timeout
  = Some [answer; fallback_answer query; emergency_fallback].
Proof.
  intros b answer Hnone Halive Hb Hsent Hans Hfuel.
  unfold generate_answer_streaming. fold b.
  replace fuel with (n + (fuel - n))%nat by lia.
  rewrite (stream_loop_skips _ _ _ Hnone Halive).
  rewrite (stream_loop_fuel 1 (fuel - n) _ _ _ _ _
             ([answer],
              {| has_yielded := false; buffer := EmptyString; iterations := 0;
                 natural_completion_detected := true |},
              Completed)); [done| |lia].
  simpl. rewrite Hb. simpl.
  assert (truthy text_chunk = true) as ->.
  { destruct text_chunk; [done|done]. }
  unfold on_text. simpl. rewrite !str_app_nil_l.
  rewrite find_contains in Hsent. rewrite Hsent.
  assert ((find end_token text_chunk >? 0) = true) as ->.
  { apply Z.gtb_lt. pose proof (find_ge end_token text_chunk).
    apply negb_true_iff, Z.eqb_neq in Hsent.
    destruct (Z.eq_dec (find end_token text_chunk) 0) as [H0|]; [|lia].
    subst answer. by rewrite H0, slice_to_0 in Hans. }
  fold answer. apply truthy_len in Hans.
  assert ((len answer >? len EmptyString) = true) as ->.
  { apply Z.gtb_lt. exact Hans. }
  by rewrite slice_from_0.
Qed.

Lemma sentinel_in_first_fragment_witness :
  generate_answer_streaming settings0
    (fun _ => backend_of_frames
                [Malformed; text_frame "Paris is the capital.END OF RESPONSE"])
    2 "capital of France" no_results 100 None
  = Some ["Paris is the capital."; fallback_answer "capital of France";
          emergency_fallback].
Proof.
  apply (sentinel_in_first_fragment settings0
           (fun _ => backend_of_frames
                       [Malformed; text_frame "Paris is the capital.END OF RESPONSE"])
           "capital of France" no_results 100 None
           "Paris is the capital.END OF RESPONSE" 1 2); try reflexivity.
  intros i Hi. assert (i = 0%nat) as -> by lia. reflexivity.
Defined.

End LlmServiceFacts.

(** ** The search client *)

Module SearchServiceFacts.
Import PyStr LlmService SearchService Scenarios.

(** C7. Whatever the network and its history, [search_serper] sends one
    request, and when the request fails the [HTTPException] it raises
    depends on the kind of failure alone: 403 for a 403 response, 504 for
    a timeout, 503 for a connection failure, the upstream status and text
    for any other error status, and 500 with the text of the error for any
    other failure of the request or of reading the response. *)
Theorem search_serper_error_mapping (key api : string) (float_str : Q -> string)
    (query : string) (timeout : Q) (w : network) :
  let request := {| url := api; api_key := key; q := query; gl := "us"; hl := "en";
                    post_timeout := timeout |} in
  let outcome := answer_to w (length (sent w)) request in
  let run := search_serper key api float_str query timeout w in
  sent run.1 = sent w ++ [request] /\
  (forall r, outcome = Responded r -> status_code r = 403 ->
     run.2 = inl {| http_status := 403;
                    detail := "Authentication failed with Serper.dev API. Please check your API key." |}) /\
  (forall text, outcome = RequestFailed TimeoutException text ->
     run.2 = inl {| http_status := 504;
                    detail := "Search request timed out after " +:+ float_str timeout +:+ " seconds" |}) /\
  (forall text, outcome = RequestFailed ConnectError text ->
     run.2 = inl {| http_status := 503; detail := "Could not connect to search API" |}) /\
  (forall r, outcome = Responded r -> is_success (status_code r) = false ->
     status_code r <> 403 ->
     run.2 = inl {| http_status := status_code r;
                    detail := "Search API error: " +:+ status_error r |}) /\
  (forall text, outcome = RequestFailed OtherRequestError text ->
     run.2 = inl {| http_status := 500; detail := "Request error: " +:+ text |}) /\
  (forall text, outcome = Failed text ->
     run.2 = inl {| http_status := 500; detail := "Unexpected error: " +:+ text |}) /\
  (forall r text, outcome = Responded r -> is_success (status_code r) = true ->
     body r = inl text ->
     run.2 = inl {| http_status := 500; detail := "Unexpected error: " +:+ text |}).
Proof.
  intros request outcome run.
  assert (run = search_serper key api float_str query timeout w) as Hrun by done.
  unfold search_serper, mbind, M_bind, client_post in Hrun. simpl in Hrun.
  fold request in Hrun. fold outcome in Hrun.
  repeat split.
  - rewrite Hrun. destruct outcome as [r|[] ?|?]; try done.
    destruct (is_success (status_code r)); [by destruct (body r)|].
    by destruct (status_code r =? 403).
  - intros r Hr H403. rewrite Hrun, Hr. by rewrite H403.
  - intros text Ho. by rewrite Hrun, Ho.
  - intros text Ho. by rewrite Hrun, Ho.
  - intros r Hr Herr Hne. rewrite Hrun, Hr, Herr.
    by apply Z.eqb_neq in Hne as ->.
  - intros text Ho. by rewrite Hrun, Ho.
  - intros text Ho. by rewrite Hrun, Ho.
  - intros r text Hr Hok Hbody. by rewrite Hrun, Hr, Hok, Hbody.
Qed.

Lemma search_serper_error_mapping_witness :
  (search_serper "key" "https://google.serper.dev/search" float_str0
     "capital of France" 30%Q
     (network_answering (RequestFailed TimeoutException "timed out"))).2
  = inl {| http_status := 504;
           detail := "Search request timed out after 30.0 seconds" |}.
Proof.
  destruct (search_serper_error_mapping "key" "https://google.serper.dev/search"
              float_str0 "capital of France" 30%Q
              (network_answering (RequestFailed TimeoutException "timed out")))
    as (_ & _ & Htimeout & _).
  apply (Htimeout "timed out"). reflexivity.
Defined.

End SearchServiceFacts.

(** ** The prompt formatter *)

Module PromptFacts.
Import PyStr PyStrFacts LlmService Scenarios.




End PromptFacts.

(** ** The endpoint, the registry and the unified stream *)

Module RoutesFacts.
Import PyStr PyStrFacts LlmService Routes Scenarios PromptFacts.

Section StreamFacts.

Variable stream_request : StreamRequest.
Variable request_id session_id : string.
Variable search : string -> search_outcome.
Variable generate : string -> search_results -> Z -> option Z -> generation.
Variable registry_at : checkpoint -> gmap string stream_data.

Local Abbreviation polled := (Routes.polled request_id registry_at).
Local Abbreviation format_sse := (Routes.format_sse request_id session_id).
Local Abbreviation stream_search_results :=
  (Routes.stream_search_results request_id session_id registry_at).
Local Abbreviation stream_chunks := (Routes.stream_chunks request_id session_id registry_at).
Local Abbreviation search_phase :=
  (Routes.search_phase stream_request request_id session_id search registry_at).
Local Abbreviation generation_phase :=
  (Routes.generation_phase stream_request request_id session_id generate registry_at).
Local Abbreviation generate_unified_stream :=
  (Routes.generate_unified_stream stream_request request_id session_id search generate
     registry_at).

(** The envelopes of the search phase are neither answer chunks nor the
    end marker. *)
Lemma stream_search_results_quiet (idx : nat) (total : Z)
    (results : list (gmap string string)) :
  Forall (fun e => is_type "answer_chunk" e = false /\ is_done e = false)
         (stream_search_results idx total results).1.
Proof.
  revert idx. induction results as [|r rs IH]; intros idx; simpl; [constructor|].
  destruct (polled (BeforeResult idx)); [constructor|].
  specialize (IH (S idx)).
  destruct (stream_search_results (S idx) total rs) as [out alive]. simpl in *.
  by constructor.
Qed.

Lemma search_phase_quiet :
  Forall (fun e => is_type "answer_chunk" e = false /\ is_done e = false) search_phase.1.
Proof.
  unfold Routes.search_phase.
  destruct (search (query stream_request)) as [results|e]; simpl.
  - destruct (polled AfterSearch); simpl; [constructor|].
    destruct (organic results) as [|r rs] eqn:Ho; simpl; [by repeat constructor|].
    destruct (max_search_results stream_request) as [m|]; simpl;
      [|by repeat constructor].
    pose proof (stream_search_results_quiet 0
                  (Z.min m (Z.of_nat (S (length rs))))
                  (list_slice_to (r :: rs) (Z.min m (Z.of_nat (S (length rs)))))) as H.
    destruct (stream_search_results _ _ _) as [out alive]. simpl in *.
    by constructor.
  - by repeat constructor.
Qed.

(** With the client connected, the loops run to their ends. *)
Lemma stream_chunks_alive (idx : nat) (chunk_count total_tokens : Z) (has_content : bool)
    (cs : list string) :
  (forall i, polled (AfterChunk i) = false) ->
  exists r, (stream_chunks idx chunk_count total_tokens has_content cs).2 = Some r.
Proof.
  intros Hc. revert idx chunk_count total_tokens has_content.
  induction cs as [|c cs IH]; intros idx cc tt hc; simpl; [eauto|].
  rewrite Hc. destruct (truthy c); [|apply IH].
  specialize (IH (S idx) (cc + 1) (tt + count_words c) true).
  destruct (stream_chunks (S idx) (cc + 1) (tt + count_words c) true cs) as [out r].
  exact IH.
Qed.

Lemma generation_phase_alive (results : search_results) :
  (forall i, polled (AfterChunk i) = false) ->
  (generation_phase results).2 = true.
Proof.
  intros Hc. unfold Routes.generation_phase.
  destruct (stream_chunks_alive 0 0 0 false
              (chunks (generate (query stream_request) results MAX_LLM_ITERATIONS
                         (timeout stream_request))) Hc) as [[[cc tt] hc] Hr].
  destruct (stream_chunks 0 0 0 false _) as [out r]. simpl in Hr. subst r.
  by destruct (raised _).
Qed.

Lemma Forall_existsb_false {A : Type} (f : A -> bool) (l : list A) :
  Forall (fun x => f x = false) l -> existsb f l = false.
Proof. induction 1 as [|x l Hx _ IH]; simpl; [done|]. by rewrite Hx, IH. Qed.

(** C5. When the check before the generation phase finds the stream in
    the registry with its disconnected flag set, the stream holds no
    [answer_chunk] envelope and no end marker. *)
Theorem disconnected_before_generation (entry : stream_data) :
  registry_at BeforeGeneration !! request_id = Some entry ->
  disconnected entry = true ->
  existsb (is_type "answer_chunk") generate_unified_stream = false /\
  existsb is_done generate_unified_stream = false.
Proof.
  intros Hentry Hflag.
  assert (polled BeforeGeneration = true) as Hgone.
  { unfold Routes.polled, is_disconnected. by rewrite Hentry. }
  pose proof search_phase_quiet as Hquiet.
  unfold Routes.generate_unified_stream.
  destruct search_phase as [found [results|]]; simpl in Hquiet.
  - rewrite Hgone, app_nil_r. simpl.
    split; apply Forall_existsb_false; eapply Forall_impl; try exact Hquiet;
      simpl; by intros ? [??].
  - simpl. split; apply Forall_existsb_false; eapply Forall_impl; try exact Hquiet;
      simpl; by intros ? [??].
Qed.

End StreamFacts.

(** One pass of the sweep removes the streams registered more than 15
    minutes before it and keeps every other entry as it is. *)
Theorem cleanup_sweep_by_age (now : Z) (reg : gmap string stream_data) (rid : string)
    (entry : stream_data) :
  reg !! rid = Some entry ->
  (now - start_time entry > 15 * 60 -> cleanup_active_streams now reg !! rid = None) /\
  (now - start_time entry <= 15 * 60 ->
   cleanup_active_streams now reg !! rid = Some entry).
Proof.
  intros Hentry. unfold cleanup_active_streams. split; intros Hage.
  - apply map_lookup_filter_None. right. intros x Hx. simplify_eq. simpl.
    intros Hkeep. by apply Hkeep.
  - apply map_lookup_filter_Some. split; [done|]. simpl. lia.
Qed.

Lemma cleanup_sweep_by_age_witness :
  cleanup_active_streams (16 * 60) registered !! "r-1" = None /\
  cleanup_active_streams (10 * 60) registered !! "r-1"
  = Some {| start_time := 0; stream_session_id := "r-1";
            stream_query := "capital of France"; disconnected := false |}.
Proof.
  destruct (cleanup_sweep_by_age (16 * 60) registered "r-1"
              {| start_time := 0; stream_session_id := "r-1";
                 stream_query := "capital of France"; disconnected := false |}
              eq_refl) as [Hold _].
  destruct (cleanup_sweep_by_age (10 * 60) registered "r-1"
              {| start_time := 0; stream_session_id := "r-1";
                 stream_query := "capital of France"; disconnected := false |}
              eq_refl) as [_ Hyoung].
  split; [apply Hold|apply Hyoung]; simpl; lia.
Defined.

Lemma disconnected_before_generation_witness :
  existsb (is_type "answer_chunk")
    (generate_unified_stream request0 "r-1" "r-1" good_search paris_generation
       client_gone_before_generation) = false /\
  existsb is_done
    (generate_unified_stream request0 "r-1" "r-1" good_search paris_generation
       client_gone_before_generation) = false.
Proof.
  apply (disconnected_before_generation request0 "r-1" "r-1" good_search
           paris_generation client_gone_before_generation
           {| start_time := 0; stream_session_id := "r-1";
              stream_query := "capital of France"; disconnected := true |});
    reflexivity.
Defined.

(** C6, on the code. A GET with the query alone is processed with
    [max_search_results] 5, [temperature] 0.7, [top_p] 0.9 and [top_k] 40,
    but with [max_tokens] 4096 and [timeout] 300, which are not the 2048
    and 180 that [StreamRequest] declares and a POST body gets; a GET
    without a query is refused with status 400. *)
Theorem unified_get_defaults (py_int : string -> option Z) (py_float : string -> option Q)
    (q uuid : string) :
  truthy q = true ->
  unified_endpoint_get py_int py_float {[ "query" := q ]} uuid
  = inr {| query := q; request_id := Some uuid; session_id := None; model := None;
           language := Some "en"; max_search_results := Some 5;
           temperature := Some 0.7%Q; max_tokens := Some 4096; top_p := Some 0.9%Q;
           top_k := Some 40; timeout := Some 300 |} /\
  max_tokens (StreamRequest_defaults q uuid) = Some 2048 /\
  timeout (StreamRequest_defaults q uuid) = Some 180 /\
  (forall query_params : gmap string string,
     query_params !! "query" = None ->
     unified_endpoint_get py_int py_float query_params uuid
     = inl (HTTPError 400 "Query parameter is required")).
Proof.
  intros Hq. repeat split.
  - unfold unified_endpoint_get, int_param, float_param.
    rewrite lookup_singleton_eq, Hq. simpl.
    by rewrite !lookup_singleton_ne.
  - intros query_params Hnone. unfold unified_endpoint_get. by rewrite Hnone.
Qed.

Lemma unified_get_defaults_witness :
  unified_endpoint_get (fun _ => None) (fun _ => None)
    {[ "query" := "capital of France" ]} "r-1"
  = inr {| query := "capital of France"; request_id := Some "r-1"; session_id := None;
           model := None; language := Some "en"; max_search_results := Some 5;
           temperature := Some 0.7%Q; max_tokens := Some 4096; top_p := Some 0.9%Q;
           top_k := Some 40; timeout := Some 300 |}.
Proof.
  apply (unified_get_defaults (fun _ => None) (fun _ => None) "capital of France" "r-1").
  reflexivity.
Defined.

End RoutesFacts.

(** ** The generator on finite streams *)

Module StreamsFacts.
Import PyStr PyStrFacts LlmService Scenarios Streams LlmServiceFacts.

(** The loop looks at a backend from its position on only. *)
Lemma stream_loop_shift (fuel : nat) (mi : Z) (b b' : backend) (i j : nat)
    (st : gen_state) (acc : list string) :
  (forall n, b (i + n)%nat = b' (j + n)%nat) ->
  stream_loop fuel mi b i st acc = stream_loop fuel mi b' j st acc.
Proof.
  revert i j st acc. induction fuel as [|fuel IH]; intros i j st acc Hb; [done|].
  simpl. pose proof (Hb 0%nat) as H0. rewrite !Nat.add_0_r in H0. rewrite H0.
  destruct (b' j) as [f| | |]; try done.
  destruct (on_frame mi f st) as [[out st'] c]. destruct c; try done.
  apply IH. intros n. specialize (Hb (S n)).
  by rewrite !Nat.add_succ_r in Hb.
Qed.

(** On a finite stream the loop is [events_loop]. *)
Lemma stream_loop_events (mi : Z) (l : list stream_event) (st : gen_state)
    (acc : list string) (fuel : nat) :
  (length l < fuel)%nat ->
  stream_loop fuel mi (backend_of_events l) 0 st acc = Some (events_loop mi l st acc).
Proof.
  revert st acc fuel. induction l as [|e l IH]; intros st acc fuel Hfuel;
    (destruct fuel as [|fuel]; [simpl in Hfuel; lia|]); [done|].
  simpl. change (backend_of_events (e :: l) 0%nat) with e.
  destruct e as [f| | |]; try done.
  destruct (on_frame mi f st) as [[out st'] c]. destruct c; try done.
  rewrite <- (IH st' (acc ++ out) fuel) by (simpl in Hfuel; lia).
  apply stream_loop_shift. intros n. reflexivity.
Qed.

Lemma generate_events (settings : Settings) (llm : generate_request -> backend)
    (query : string) (sr : search_results) (mi : Z) (timeout : option Z)
    (l : list stream_event) (fuel : nat) :
  (forall n, llm (generate_payload settings query sr timeout) n = backend_of_events l n) ->
  (length l < fuel)%nat ->
  generate_answer_streaming settings llm fuel query sr mi timeout
  = Some (let '(yielded, st, e) := events_loop mi l initial_state [] in
          yielded ++ after_loop query mi st e).
Proof.
  intros Hb Hfuel. unfold generate_answer_streaming.
  rewrite (stream_loop_shift _ _ _ (backend_of_events l) 0 0) by done.
  rewrite stream_loop_events by done. by destruct (events_loop _ _ _ _) as [[??]?].
Qed.

Lemma backend_of_frames_events (l : list frame) (n : nat) :
  backend_of_frames l n = backend_of_events (Chunk <$> l) n.
Proof.
  unfold backend_of_frames, backend_of_events. rewrite list_lookup_fmap.
  by destruct (l !! n).
Qed.

(** *** Strings *)

Lemma str_length_drop (n : nat) (s : string) :
  String.length (drop n s) = (String.length s - n)%nat.
Proof.
  revert s. induction n as [|n IH]; intros [|a s]; simpl; done.
Qed.

Lemma slice_bound_nonneg (s : string) (i : Z) :
  0 <= i <= len s -> slice_bound s i = Z.to_nat i.
Proof.
  intros Hi. unfold slice_bound.
  assert ((i <? 0) = false) as -> by (apply Z.ltb_ge; lia).
  by rewrite Z.min_l by lia.
Qed.

Lemma slice_from_truthy (s : string) (i : Z) :
  0 <= i < len s -> truthy (slice_from s i) = true.
Proof.
  intros Hi. apply truthy_len. unfold slice_from.
  rewrite slice_bound_nonneg by lia. unfold len in *.
  rewrite str_length_drop. lia.
Qed.

Lemma str_drop_app_exact (s t : string) : drop (String.length s) (s +:+ t) = t.
Proof. induction s as [|a s IH]; [by destruct t|]. by rewrite str_app_cons. Qed.

Lemma str_take_app_ge (n : nat) (s t : string) :
  (String.length s <= n)%nat ->
  take n (s +:+ t) = s +:+ take (n - String.length s) t.
Proof.
  revert n. induction s as [|a s IH]; intros n Hn.
  - rewrite !str_app_nil_l. simpl. by rewrite Nat.sub_0_r.
  - destruct n as [|n]; [simpl in Hn; lia|].
    rewrite !str_app_cons. simpl. rewrite IH by (simpl in Hn; lia). done.
Qed.

(** Two ways to cut one text: the shorter first part begins the longer. *)
Lemma str_app_eq_inv (s1 w s2 x : string) :
  s1 +:+ w = s2 +:+ x -> (String.length s2 <= String.length s1)%nat ->
  exists e, s1 = s2 +:+ e /\ x = e +:+ w.
Proof.
  revert s1. induction s2 as [|b s2 IH]; intros s1 Heq Hlen.
  - exists s1. by rewrite !str_app_nil_l in *.
  - destruct s1 as [|a s1]; [simpl in Hlen; lia|].
    rewrite !str_app_cons in Heq. injection Heq as -> Heq.
    destruct (IH s1 Heq) as (e & -> & ->); [simpl in Hlen; lia|].
    exists e. by rewrite str_app_cons.
Qed.

Lemma all_space_app (s t : string) :
  all_space (s +:+ t) = all_space s && all_space t.
Proof.
  induction s as [|a s IH]; [done|].
  rewrite str_app_cons. simpl. rewrite IH. by rewrite andb_assoc.
Qed.

(** [rstrip] takes white space off the end and nothing else. *)
Lemma rstrip_split (s : string) :
  exists w, s = rstrip s +:+ w /\ all_space w = true.
Proof.
  induction s as [|a s (w & Hs & Hw)]; [by exists EmptyString|].
  simpl. destruct (rstrip s) as [|b r] eqn:Hr.
  - rewrite str_app_nil_l in Hs. subst w. destruct (isspace a) eqn:Ha.
    + exists (String a s). split; [done|]. simpl. by rewrite Ha, Hw.
    + exists s. by split.
  - exists w. split; [|done]. rewrite str_app_cons. by rewrite <- Hs.
Qed.

Lemma lstrip_no_leading_space (s : string) : leading_space s = false -> lstrip s = s.
Proof. destruct s as [|a s]; [done|]. simpl. by intros ->. Qed.

Lemma strip_truthy (s : string) :
  truthy s = true -> leading_space s = false -> truthy (strip s) = true.
Proof.
  intros Hs Hlead. unfold strip. rewrite lstrip_no_leading_space by done.
  destruct s as [|a s]; [done|]. simpl in *. rewrite Hlead.
  by destruct (rstrip s).
Qed.

Lemma concat_truthy (ts : list string) :
  ts <> [] -> Forall (fun t => truthy t = true) ts -> truthy (concat ts) = true.
Proof.
  intros Hne Hall. destruct Hall as [|t ts Ht _]; [done|].
  unfold concat. simpl. by destruct t.
Qed.

Lemma concat_cons (t : string) (ts : list string) : concat (t :: ts) = t +:+ concat ts.
Proof. reflexivity. Qed.

Lemma indicated_app (s t : string) : indicated s = true -> indicated (s +:+ t) = true.
Proof.
  unfold indicated. intros (x & Hx & Hc)%existsb_exists.
  apply existsb_exists. exists x. split; [done|].
  rewrite lower_app. by apply contains_app.
Qed.

(** *** Every fragment is non-empty *)

Lemma on_frame_truthy (mi : Z) (f : frame) (st st' : gen_state) (out : list string)
    (c : control) :
  on_frame mi f st = (out, st', c) -> Forall (fun x => truthy x = true) out.
Proof.
  unfold on_frame, on_text. intros H.
  repeat case_match; simplify_eq/=; repeat constructor; try done.
  apply slice_from_truthy. flags_to_Z. pose proof (len_nonneg (buffer st)). lia.
Qed.

Lemma after_loop_truthy (query : string) (mi : Z) (st : gen_state) (e : loop_exit) :
  Forall (fun x => truthy x = true) (after_loop query mi st e).
Proof.
  unfold after_loop.
  destruct e; repeat case_match; simpl; repeat constructor.
Qed.

Lemma stream_loop_truthy (fuel : nat) (mi : Z) (b : backend) (i : nat)
    (st st' : gen_state) (acc out : list string) (e : loop_exit) :
  stream_loop fuel mi b i st acc = Some (out, st', e) ->
  Forall (fun x => truthy x = true) acc ->
  Forall (fun x => truthy x = true) out.
Proof.
  revert i st acc. induction fuel as [|fuel IH]; intros i st acc; [done|].
  simpl. destruct (b i) as [f| | |]; try (intros; by simplify_eq).
  destruct (on_frame mi f st) as [[o st1] c] eqn:Hf.
  pose proof (on_frame_truthy _ _ _ _ _ _ Hf) as Ho.
  destruct c; intros H Hacc; simplify_eq; try (apply Forall_app; by split).
  eapply IH; [exact H|]. apply Forall_app. by split.
Qed.

(** Whatever the backend sends, no fragment the generator yields is the
    empty string. *)
Theorem fragments_nonempty (settings : Settings) (llm : generate_request -> backend)
    (fuel : nat) (query : string) (sr : search_results) (max_iterations : Z)
    (timeout : option Z) (out : list string) :
  generate_answer_streaming settings llm fuel query sr max_iterations timeout = Some out ->
  Forall (fun fragment => truthy fragment = true) out.
Proof.
  unfold generate_answer_streaming.
  destruct (stream_loop _ _ _ _ _ _) as [[[yielded st] e]|] eqn:Hloop; [|done].
  intros [= <-]. apply Forall_app. split.
  - by apply (stream_loop_truthy _ _ _ _ _ _ _ _ _ Hloop).
  - apply after_loop_truthy.
Qed.

Lemma fragments_nonempty_witness :
  Forall (fun fragment => truthy fragment = true)
    ["Paris is the capital."; fallback_answer "capital of France"; emergency_fallback].
Proof.
  apply (fragments_nonempty settings0
           (fun _ => backend_of_frames [text_frame "Paris is the capital.END OF RESPONSE"])
           1 "capital of France" no_results 100 None).
  reflexivity.
Defined.

(** *** Frames the loop passes over *)

Lemma on_frame_skipped (mi : Z) (f : frame) (st : gen_state) :
  skipped f = true -> on_frame mi f st = ([], st, Continue).
Proof.
  destruct f as [| |[] [[t|[]]|]]; simpl; try done.
  by destruct (truthy t).
Qed.

Lemma events_loop_skip (mi : Z) (l : list frame) (rest : list stream_event)
    (st : gen_state) (acc : list string) :
  events_loop mi ((Chunk <$> l) ++ rest) st acc =
  events_loop mi ((Chunk <$> filter (fun f => skipped f = false) l) ++ rest) st acc.
Proof.
  revert st acc. induction l as [|f l IH]; intros st acc; [done|].
  rewrite filter_cons. destruct (skipped f) eqn:Hf.
  - rewrite decide_False by done. simpl.
    rewrite on_frame_skipped by done. rewrite app_nil_r. apply IH.
  - rewrite decide_True by done. simpl.
    destruct (on_frame mi f st) as [[out st'] c]. destruct c; auto.
Qed.

(** Malformed frames, frames without a response and frames with an empty
    or falsy response change nothing: the generator's answer to a finite
    stream of frames is its answer to the stream without them. *)
Theorem skipped_frames_change_nothing (settings : Settings) (query : string)
    (sr : search_results) (max_iterations : Z) (timeout : option Z) (l : list frame) :
  generate_answer_streaming settings (fun _ => backend_of_frames l)
    (S (length l)) query sr max_iterations timeout
  = generate_answer_streaming settings
      (fun _ => backend_of_frames (filter (fun f => skipped f = false) l))
      (S (length l)) query sr max_iterations timeout.
Proof.
  rewrite (generate_events _ _ _ _ _ _ (Chunk <$> l));
    [|intros n; apply backend_of_frames_events|rewrite length_fmap; lia].
  rewrite (generate_events _ _ _ _ _ _
             (Chunk <$> filter (fun f => skipped f = false) l));
    [|intros n; apply backend_of_frames_events|].
  - pose proof (events_loop_skip max_iterations l [] initial_state []) as H.
    rewrite !app_nil_r in H. by rewrite H.
  - rewrite length_fmap. pose proof (length_filter (fun f => skipped f = false) l). lia.
Qed.

(** *** What follows the end of the stream *)

Lemma events_loop_end (mi : Z) (l1 l2 : list stream_event) (e : stream_event)
    (st : gen_state) (acc : list string) :
  ends_stream e = true ->
  events_loop mi (l1 ++ e :: l2) st acc = events_loop mi (l1 ++ [e]) st acc.
Proof.
  intros He. revert st acc. induction l1 as [|x l1 IH]; intros st acc.
  - simpl. destruct e as [f| | |]; try done.
    by destruct f as [| |[] [[t|[]]|]].
  - simpl. destruct x as [f| | |]; try done.
    destruct (on_frame mi f st) as [[out st'] c]. destruct c; auto.
Qed.

(** Once the stream has closed, failed, signalled done or sent a frame of
    the wrong shape, nothing the backend sends afterwards is read: the
    answer is the one to the stream cut there. *)
Theorem events_after_the_end_are_not_read (settings : Settings) (query : string)
    (sr : search_results) (max_iterations : Z) (timeout : option Z)
    (l1 l2 : list stream_event) (e : stream_event) (fuel : nat) :
  ends_stream e = true ->
  (length (l1 ++ e :: l2) < fuel)%nat ->
  generate_answer_streaming settings (fun _ => backend_of_events (l1 ++ e :: l2))
    fuel query sr max_iterations timeout
  = generate_answer_streaming settings (fun _ => backend_of_events (l1 ++ [e]))
      fuel query sr max_iterations timeout.
Proof.
  intros He Hfuel.
  rewrite (generate_events _ _ _ _ _ _ (l1 ++ e :: l2)); [|done|done].
  rewrite (generate_events _ _ _ _ _ _ (l1 ++ [e])); [|done|].
  - by rewrite events_loop_end.
  - rewrite length_app in *. simpl in *. lia.
Qed.

Lemma events_after_the_end_are_not_read_witness :
  generate_answer_streaming settings0
    (fun _ => backend_of_events
                [Chunk (text_frame "Rome."); Chunk (Object true None);
                 Chunk (text_frame "never read")])
    4 "capital of Italy" no_results 100 None
  = generate_answer_streaming settings0
      (fun _ => backend_of_events [Chunk (text_frame "Rome."); Chunk (Object true None)])
      4 "capital of Italy" no_results 100 None.
Proof.
  apply (events_after_the_end_are_not_read settings0 "capital of Italy" no_results 100
           None [Chunk (text_frame "Rome.")] [Chunk (text_frame "never read")]
           (Chunk (Object true None)) 4); [reflexivity|simpl; lia].
Defined.

(** *** A stream that delivers nothing *)

(** When the stream ends before it has delivered any text (all its
    frames are frames the loop passes over), the answer is the fallback
    answer for the query followed by the emergency apology, however the
    stream ends. *)
Theorem nothing_delivered_gives_both_fallbacks (settings : Settings) (query : string)
    (sr : search_results) (max_iterations : Z) (timeout : option Z)
    (l : list frame) (ending : stream_event) (fuel : nat) :
  Forall (fun f => skipped f = true) l ->
  ends_stream ending = true ->
  (length l + 1 < fuel)%nat ->
  generate_answer_streaming settings
    (fun _ => backend_of_events ((Chunk <$> l) ++ [ending]))
    fuel query sr max_iterations timeout
  = Some [fallback_answer query; emergency_fallback].
Proof.
  intros Hl He Hfuel.
  rewrite (generate_events _ _ _ _ _ _ ((Chunk <$> l) ++ [ending]));
    [|done|rewrite length_app, length_fmap; simpl; lia].
  rewrite events_loop_skip.
  assert (filter (fun f => skipped f = false) l = []) as ->.
  { clear Hfuel. induction Hl as [|f l Hf _ IH]; [done|].
    rewrite filter_cons, decide_False by (rewrite Hf; done). exact IH. }
  simpl. destruct ending as [f| | |]; try done.
  by destruct f as [| |[] [[t|[]]|]].
Qed.

Lemma nothing_delivered_gives_both_fallbacks_witness :
  generate_answer_streaming settings0
    (fun _ => backend_of_events ((Chunk <$> [Malformed; Object false None]) ++ [HttpxError]))
    4 "capital of France" no_results 100 None
  = Some [fallback_answer "capital of France"; emergency_fallback].
Proof.
  apply (nothing_delivered_gives_both_fallbacks settings0 "capital of France" no_results
           100 None [Malformed; Object false None] HttpxError 4);
    [by repeat constructor|reflexivity|simpl; lia].
Defined.

(** *** Texts delivered one after the other *)

(** The loop body on a text that neither completes the sentinel nor
    reaches the cap. *)
Lemma on_text_goes_on (mi : Z) (t : string) (st : gen_state) :
  contains end_token (buffer st +:+ t) = false ->
  iterations st + 1 < mi ->
  on_text mi t st =
  ([t],
   {| has_yielded := true; buffer := buffer st +:+ t;
      iterations := iterations st + 1;
      natural_completion_detected :=
        natural_completion_detected st || indicated (buffer st +:+ t) |},
   Continue).
Proof.
  intros Hsent Hcap. unfold on_text.
  rewrite find_contains in Hsent. rewrite Hsent.
  assert ((iterations st + 1 >=? mi) = false) as ->; [|done].
  rewrite Z.geb_leb. apply Z.leb_gt. lia.
Qed.

(** The loop over texts that stay below the cap and hold no sentinel:
    each is yielded as it is, the buffer collects them, and the completion
    flag ends up set exactly when an indicator is in the buffer. *)
Lemma events_loop_texts (mi : Z) (ts : list string) (rest : list stream_event)
    (st : gen_state) (acc : list string) :
  Forall (fun t => truthy t = true) ts ->
  contains end_token (buffer st +:+ concat ts) = false ->
  iterations st + Z.of_nat (length ts) < mi ->
  (indicated (buffer st) = true -> natural_completion_detected st = true) ->
  events_loop mi ((Chunk <$> (text_frame <$> ts)) ++ rest) st acc =
  events_loop mi rest
    {| has_yielded := match ts with [] => has_yielded st | _ => true end;
       buffer := buffer st +:+ concat ts;
       iterations := iterations st + Z.of_nat (length ts);
       natural_completion_detected :=
         natural_completion_detected st || indicated (buffer st +:+ concat ts) |}
    (acc ++ ts).
Proof.
  intros Hall. revert st acc.
  induction Hall as [|t ts Ht Hall IH]; intros st acc Hsent Hcap Hinv.
  - simpl. rewrite app_nil_r. unfold concat. simpl. rewrite str_app_nil_r, Z.add_0_r.
    destruct st as [y b i d]. simpl in *. f_equal. f_equal.
    destruct d; [done|]. simpl. destruct (indicated b); [by apply Hinv|done].
  - rewrite concat_cons, <- str_app_assoc in Hsent.
    simpl. rewrite Ht.
    rewrite on_text_goes_on;
      [|by apply (no_sentinel_prefix _ (concat ts))|rewrite length_cons in Hcap; lia].
    rewrite IH; simpl.
    + rewrite <- !str_app_assoc, <- app_assoc. simpl.
      f_equal. f_equal; [by destruct ts|lia|].
      destruct (natural_completion_detected st); [done|]. simpl.
      destruct (indicated (buffer st +:+ t)) eqn:Hi; [|done]. simpl.
      symmetry. by apply indicated_app.
    + done.
    + rewrite length_cons in Hcap. lia.
    + intros ->. apply orb_true_r.
Qed.

(** A stream that delivers non-empty texts, fewer than the cap, without
    the sentinel and not white space altogether, and then ends. The answer
    is the texts as they came, followed by: the closing sentence, unless a
    completion indicator is in the texts (whatever its case), when the
    stream closes or signals done; nothing, when the stream fails with an
    httpx error; the fallback answer, when it fails with any other error or
    sends a frame of the wrong shape. *)
Theorem texts_then_ending (settings : Settings) (query : string)
    (sr : search_results) (max_iterations : Z) (timeout : option Z)
    (ts : list string) (ending : stream_event) (fuel : nat) :
  ts <> [] ->
  Forall (fun t => truthy t = true) ts ->
  Z.of_nat (length ts) < max_iterations ->
  contains end_token (concat ts) = false ->
  truthy (strip (concat ts)) = true ->
  ends_stream ending = true ->
  (length ts + 1 < fuel)%nat ->
  generate_answer_streaming settings (fun _ => backend_of_events (texts_then ts ending))
    fuel query sr max_iterations timeout
  = Some (ts ++
          match ending with
          | EndOfStream | Chunk (Object true _) =>
              if indicated (concat ts) then [] else [closing]
          | HttpxError => []
          | _ => [fallback_answer query]
          end).
Proof.
  intros Hne Hall Hcap Hsent Hblank Hend Hfuel.
  rewrite (generate_events _ _ _ _ _ _ (texts_then ts ending));
    [|done|unfold texts_then; rewrite length_app, !length_fmap; simpl; lia].
  unfold texts_then. rewrite events_loop_texts; [|done|done|simpl; lia|done].
  simpl. rewrite !str_app_nil_l.
  assert (match ts with [] => false | _ :: _ => true end = true) as Hy
    by (by destruct ts).
  assert ((0 + Z.of_nat (length ts) <? max_iterations) = true) as Hlt
    by (apply Z.ltb_lt; lia).
  assert (forall e,
            ts ++
            after_loop query max_iterations
              {| has_yielded := match ts with [] => false | _ :: _ => true end;
                 buffer := concat ts;
                 iterations := 0 + Z.of_nat (length ts);
                 natural_completion_detected := indicated (concat ts) |} e
            = ts ++ match e with
                    | Completed => if indicated (concat ts) then [] else [closing]
                    | HttpFailed => []
                    | Crashed => [fallback_answer query]
                    end) as Htail.
  { intros e. unfold after_loop. simpl. rewrite Hy, Hlt, Hblank. simpl.
    destruct e; rewrite ?app_nil_r; [|done|done].
    by destruct (indicated (concat ts)). }
  destruct ending as [f| | |]; simpl;
    [|by rewrite ?app_nil_r, ?str_app_nil_l, ?Htail, ?app_nil_r..].
  destruct f as [| |[] [[t|[]]|]]; simpl in *; try done;
    by rewrite ?app_nil_r, ?str_app_nil_l, ?Htail, ?app_nil_r.
Qed.

Lemma texts_then_ending_witness :
  generate_answer_streaming settings0
    (fun _ => backend_of_events (texts_then ["IN CONCLUSION, "; "Rome."] HttpxError))
    4 "capital of Italy" no_results 100 None
  = Some (["IN CONCLUSION, "; "Rome."] ++ []).
Proof.
  apply (texts_then_ending settings0 "capital of Italy" no_results 100 None
           ["IN CONCLUSION, "; "Rome."] HttpxError 4);
    first [done | by repeat constructor | reflexivity | simpl; lia].
Defined.

(** *** The sentinel after texts were yielded *)

(** What the sentinel branch of the loop body yields, when the sentinel
    begins at or after the end of a buffer that does not begin with white
    space: together with the buffer it makes up the text before the
    sentinel, but for white space at its end. *)
Lemma sentinel_branch_yield (B t : string) :
  truthy B = true -> leading_space B = false ->
  len B <= find end_token (B +:+ t) ->
  let pre := slice_to (B +:+ t) (find end_token (B +:+ t)) in
  let final_chunk := strip pre in
  exists last w,
    (if len final_chunk >? len B then [slice_from final_chunk (len B)] else []) = last /\
    (length last <= 1)%nat /\
    all_space w = true /\
    B +:+ concat last +:+ w = pre.
Proof.
  intros HB Hlead Hpos pre final_chunk.
  pose proof (len_nonneg B) as HlenB. pose proof (len_nonneg (B +:+ t)) as Hlen.
  assert (exists x, pre = B +:+ x) as [x Hpre].
  { subst pre. unfold slice_to, slice_bound.
    assert ((find end_token (B +:+ t) <? 0) = false) as -> by (apply Z.ltb_ge; lia).
    rewrite str_take_app_ge; [eauto|].
    rewrite len_app in *. unfold len in *. lia. }
  assert (final_chunk = rstrip pre) as Hfinal.
  { subst final_chunk. unfold strip. rewrite lstrip_no_leading_space; [done|].
    rewrite Hpre. destruct B; [done|]. by rewrite str_app_cons. }
  destruct (rstrip_split pre) as (w & Hsplit & Hw). rewrite <- Hfinal in Hsplit.
  rewrite Hpre in Hsplit.
  destruct (len final_chunk >? len B) eqn:Hcmp.
  - apply Z.gtb_lt in Hcmp.
    destruct (str_app_eq_inv final_chunk w B x) as (e & He & Hx);
      [done|unfold len in Hcmp; lia|].
    exists [e], w. split; [|split; [simpl; lia|split; [done|]]].
    + f_equal. rewrite He. unfold slice_from.
      rewrite slice_bound_nonneg by (rewrite len_app; pose proof (len_nonneg e); lia).
      unfold len. rewrite Nat2Z.id. apply str_drop_app_exact.
    + unfold concat. simpl. rewrite str_app_nil_r. by rewrite Hpre, Hx.
  - rewrite Z.gtb_ltb in Hcmp. apply Z.ltb_ge in Hcmp.
    destruct (str_app_eq_inv B x final_chunk w) as (e & He & Hwe);
      [done|unfold len in Hcmp; lia|].
    exists [], x. split; [done|]. split; [simpl; lia|]. split.
    + rewrite Hwe, all_space_app in Hw. by apply andb_true_iff in Hw as [_ ?].
    + unfold concat. simpl. by rewrite str_app_nil_l.
Qed.

(** When non-empty texts were yielded (fewer than the cap, without the
    sentinel, not beginning with white space) and the next text brings the
    sentinel, beginning at or after the end of what was yielded: the answer
    is these texts and at most one more fragment, which together are the
    text before the sentinel but for white space at its end; no part of the
    sentinel is yielded, nor anything after it, nor a closing sentence or a
    fallback. *)
Theorem sentinel_after_texts (settings : Settings) (query : string)
    (sr : search_results) (max_iterations : Z) (timeout : option Z)
    (ts : list string) (t : string) (rest : list stream_event) (fuel : nat) :
  ts <> [] ->
  Forall (fun t => truthy t = true) ts ->
  Z.of_nat (length ts) < max_iterations ->
  contains end_token (concat ts) = false ->
  leading_space (concat ts) = false ->
  contains end_token (concat ts +:+ t) = true ->
  len (concat ts) <= find end_token (concat ts +:+ t) ->
  (length ts + 1 + length rest < fuel)%nat ->
  exists last w,
    generate_answer_streaming settings
      (fun _ => backend_of_events
                  ((Chunk <$> (text_frame <$> ts)) ++ Chunk (text_frame t) :: rest))
      fuel query sr max_iterations timeout
    = Some (ts ++ last) /\
    (length last <= 1)%nat /\
    all_space w = true /\
    concat ts +:+ concat last +:+ w
    = slice_to (concat ts +:+ t) (find end_token (concat ts +:+ t)).
Proof.
  intros Hne Hall Hcap Hno Hlead Hsent Hpos Hfuel.
  pose proof (concat_truthy ts Hne Hall) as HB.
  assert (truthy t = true) as Ht.
  { destruct t; [|done]. rewrite str_app_nil_r in Hsent. congruence. }
  destruct (sentinel_branch_yield (concat ts) t HB Hlead Hpos)
    as (last & w & Hlast & Hone & Hw & Heq).
  exists last, w. split; [|by repeat split].
  rewrite (generate_events _ _ _ _ _ _
             ((Chunk <$> (text_frame <$> ts)) ++ Chunk (text_frame t) :: rest));
    [|done|rewrite length_app, !length_fmap; simpl; lia].
  rewrite events_loop_texts; [|done|done|simpl; lia|done].
  simpl. rewrite !str_app_nil_l. rewrite Ht. unfold on_text. simpl.
  rewrite find_contains in Hsent. rewrite Hsent.
  assert ((find end_token (concat ts +:+ t) >? 0) = true) as ->.
  { apply Z.gtb_lt. apply truthy_len in HB. lia. }
  rewrite Hlast.
  unfold after_loop. simpl.
  assert (match ts with [] => false | _ :: _ => true end = true) as ->
    by (by destruct ts).
  rewrite (strip_truthy _ HB Hlead). simpl.
  by rewrite !app_nil_r.
Qed.

Lemma sentinel_after_texts_witness :
  exists last w,
    generate_answer_streaming settings0
      (fun _ => backend_of_events
                  ((Chunk <$> (text_frame <$> ["Paris is "]))
                   ++ Chunk (text_frame "the capital. END OF RESPONSE")
                   :: [Chunk (text_frame "never read")]))
      4 "capital of France" no_results 100 None
    = Some (["Paris is "] ++ last) /\
    (length last <= 1)%nat /\
    all_space w = true /\
    concat ["Paris is "] +:+ concat last +:+ w
    = slice_to (concat ["Paris is "] +:+ "the capital. END OF RESPONSE")
        (find end_token (concat ["Paris is "] +:+ "the capital. END OF RESPONSE")).
Proof.
  apply (sentinel_after_texts settings0 "capital of France" no_results 100 None
           ["Paris is "] "the capital. END OF RESPONSE"
           [Chunk (text_frame "never read")] 4);
    first [done | by repeat constructor | reflexivity | by vm_compute | simpl; lia].
Defined.

End StreamsFacts.

(** ** Configuration and the URLs of the LLM backend *)

Module ConfigFacts.
Import PyStr PyStrFacts PyStrMore LlmService Config LlmAnswer Health StreamsFacts.

Lemma startswith_refl (s : string) : startswith s s = true.
Proof. induction s as [|a s IH]; [done|]. simpl. by rewrite Ascii.eqb_refl. Qed.

Lemma contains_startswith (sub s : string) :
  startswith sub s = true -> contains sub s = true.
Proof. intros H. destruct s; simpl; by rewrite H. Qed.

Lemma contains_suffix (sub x : string) : contains sub (x +:+ sub) = true.
Proof.
  induction x as [|a x IH].
  - rewrite str_app_nil_l. apply contains_startswith, startswith_refl.
  - rewrite str_app_cons. simpl. rewrite IH. apply orb_true_r.
Qed.

Lemma endswith_app (suffix s : string) : endswith suffix (s +:+ suffix) = true.
Proof.
  unfold endswith. rewrite str_length_app. apply andb_true_iff. split.
  - apply Nat.leb_le. lia.
  - replace (String.length s + String.length suffix - String.length suffix)%nat
      with (String.length s) by lia.
    rewrite str_drop_app_exact. apply String.eqb_refl.
Qed.

Lemma endswith_contains (suffix s : string) :
  endswith suffix s = true -> contains suffix s = true.
Proof.
  unfold endswith. intros [_ H]%andb_true_iff. apply String.eqb_eq in H.
  rewrite <- (str_take_drop (String.length s - String.length suffix) s), H.
  apply contains_suffix.
Qed.

Lemma rstrip_char_repeat_only (c : ascii) (k : nat) :
  rstrip_char c (repeat_char c k) = EmptyString.
Proof. induction k as [|k IH]; [done|]. simpl. by rewrite IH, Ascii.eqb_refl. Qed.

(** Trailing copies of the character do not matter to [rstrip]. *)
Lemma rstrip_char_repeat (c : ascii) (s : string) (k : nat) :
  rstrip_char c (s +:+ repeat_char c k) = rstrip_char c s.
Proof.
  induction s as [|a s IH].
  - rewrite str_app_nil_l. apply rstrip_char_repeat_only.
  - rewrite str_app_cons. simpl. by rewrite IH.
Qed.

Lemma rstrip_char_app_fixed (c : ascii) (s t : string) :
  truthy t = true -> rstrip_char c t = t -> rstrip_char c (s +:+ t) = s +:+ t.
Proof.
  intros Ht Hfix. induction s as [|a s IH]; [by rewrite str_app_nil_l|].
  rewrite str_app_cons. simpl. rewrite IH.
  destruct (s +:+ t) eqn:Hst; [|done].
  destruct s; [|done]. rewrite str_app_nil_l in Hst. by subst t.
Qed.

(** [replace] leaves a text without the old text as it is. *)
Lemma replace_absent (old new s : string) :
  contains old s = false -> replace_from old new 0 s = s.
Proof.
  induction s as [|a s IH]; [done|].
  simpl. intros [H1 H2]%orb_false_iff. rewrite H1. by rewrite IH.
Qed.

Lemma replace_from_skip (old new t : string) :
  replace_from old new (String.length t) t = EmptyString.
Proof. induction t as [|a t IH]; [done|]. exact IH. Qed.

Lemma startswith_app_long (p s t : string) :
  startswith p (s +:+ t) = true -> (String.length p <= String.length s)%nat ->
  startswith p s = true.
Proof.
  revert s. induction p as [|a p IH]; intros s H Hlen; [done|].
  destruct s as [|b s]; [simpl in Hlen; lia|].
  rewrite str_app_cons in H. simpl in *.
  destruct (Ascii.eqb a b); [|done]. apply IH; [done|lia].
Qed.

Lemma startswith_app_short (p s t : string) :
  startswith p (s +:+ t) = true -> (String.length s <= String.length p)%nat ->
  s = take (String.length s) p.
Proof.
  revert s. induction p as [|a p IH]; intros s H Hlen.
  - destruct s; [done|simpl in Hlen; lia].
  - destruct s as [|b s]; [done|].
    rewrite str_app_cons in H. simpl in *.
    destruct (Ascii.eqb_spec a b) as [->|]; [|done].
    f_equal. apply IH; [done|lia].
Qed.

(** No occurrence of [/api/generate] begins inside a text that has none
    and ends inside a copy of it put after the text. *)
Lemma no_overlap_api_generate (s : string) :
  truthy s = true -> contains "/api/generate" s = false ->
  startswith "/api/generate" (s +:+ "/api/generate") = false.
Proof.
  intros Hs Hno. apply not_true_is_false. intros H.
  destruct (Nat.le_gt_cases (String.length "/api/generate") (String.length s))
    as [Hlong|Hshort].
  - apply startswith_app_long in H; [|done].
    apply contains_startswith in H. congruence.
  - pose proof (startswith_app_short _ _ _ H ltac:(lia)) as Hpre.
    rewrite Hpre in H. clear Hpre Hno.
    assert (String.length s <> 0%nat) as Hpos by (by destruct s).
    remember (String.length s) as k eqn:Hk. clear Hk Hs.
    destruct k as [|k]; [done|].
    do 12 (destruct k as [|k]; [vm_compute in H; discriminate|]).
    simpl in Hshort. lia.
Qed.

Lemma replace_api_generate_suffix (base : string) :
  contains "/api/generate" base = false ->
  replace "/api/generate" EmptyString (base +:+ "/api/generate") = base.
Proof.
  unfold replace. induction base as [|a base IH]; [done|].
  intros Hno. rewrite str_app_cons.
  pose proof (no_overlap_api_generate (String a base) eq_refl Hno) as Hov.
  rewrite str_app_cons in Hov.
  change (replace_from "/api/generate" EmptyString 0
            (String a (base +:+ "/api/generate")))
    with (if startswith "/api/generate" (String a (base +:+ "/api/generate"))
          then EmptyString +:+
               replace_from "/api/generate" EmptyString
                 (String.length "/api/generate" - 1) (base +:+ "/api/generate")
          else String a (replace_from "/api/generate" EmptyString 0
                           (base +:+ "/api/generate"))).
  rewrite Hov. f_equal. apply IH.
  simpl in Hno. by apply orb_false_iff in Hno as [_ ?].
Qed.

(** Whatever [OLLAMA_API_URL] is in the environment, with or without
    trailing slashes, with or without the path [/api/generate]: when the
    base before them has no trailing slash and no [/api/generate] in it,
    the setting is the base, and the generator posts to the base followed
    by [/api/generate]; the health check asks the base followed by
    [/api/tags], unless the base ends with that path already. *)
Theorem ollama_url_normalised (environ : gmap string string) (base : string) (k : nat) :
  rstrip_char "/" base = base ->
  contains "/api/generate" base = false ->
  default "http://localhost:11434" (environ !! "OLLAMA_API_URL")
    = base +:+ repeat_char "/" k \/
  default "http://localhost:11434" (environ !! "OLLAMA_API_URL")
    = base +:+ "/api/generate" +:+ repeat_char "/" k ->
  OLLAMA_API_URL environ = base /\
  generate_url (OLLAMA_API_URL environ) = base +:+ "/api/generate" /\
  (endswith "/api/tags" base = false ->
   tags_url (OLLAMA_API_URL environ) = base +:+ "/api/tags").
Proof.
  intros Hfix Hno Henv.
  assert (endswith "/api/generate" base = false) as Hend.
  { apply not_true_is_false. intros H. apply endswith_contains in H. congruence. }
  assert (OLLAMA_API_URL environ = base) as Hurl.
  { unfold OLLAMA_API_URL. destruct Henv as [-> | ->].
    - by rewrite rstrip_char_repeat, Hfix, Hend.
    - rewrite <- str_app_assoc, rstrip_char_repeat.
      rewrite rstrip_char_app_fixed by done.
      rewrite endswith_app. by apply replace_api_generate_suffix. }
  rewrite Hurl. repeat split.
  - unfold generate_url. by rewrite Hend.
  - intros Htags. unfold tags_url. by rewrite Htags.
Qed.

Lemma ollama_url_normalised_witness :
  OLLAMA_API_URL {[ "OLLAMA_API_URL" := "http://ollama:11434/api/generate/" ]}
  = "http://ollama:11434".
Proof.
  apply (ollama_url_normalised
           {[ "OLLAMA_API_URL" := "http://ollama:11434/api/generate/" ]}
           "http://ollama:11434" 1); [reflexivity|reflexivity|].
  right. reflexivity.
Defined.

End ConfigFacts.

(** ** The answer in one piece, and the health check *)

Module AnswerFacts.
Import PyStr PyStrFacts PyStrMore LlmService LlmAnswer Health ConfigFacts Scenarios.

(** [generate_answer] posts to a URL that ends with [/api/generate], and
    returns a non-empty text: the backend's answer as it came, when the
    call succeeded with a 2xx status and a JSON object whose response is a
    text of at least 10 characters once stripped; the fallback answer for
    the query in every other case, a shorter answer included. *)
Theorem generate_answer_or_fallback (api_url model : string)
    (post : answer_request -> answer_outcome) (query : string) (sr : search_results) :
  let run := generate_answer api_url model post query sr in
  endswith "/api/generate" (answer_url run.1) = true /\
  truthy run.2 = true /\
  (run.2 = fallback_answer query \/
   exists status_code answer,
     post run.1 = Answered status_code (Reply (Some (RText answer))) /\
     SearchService.is_success status_code = true /\
     10 <= len (strip answer) /\ run.2 = answer) /\
  (forall status_code answer,
     post run.1 = Answered status_code (Reply (Some (RText answer))) ->
     SearchService.is_success status_code = true ->
     (10 <= len (strip answer) -> run.2 = answer) /\
     (len (strip answer) < 10 -> run.2 = fallback_answer query)).
Proof.
  intros run.
  assert (endswith "/api/generate" (answer_url run.1) = true) as Hurl.
  { simpl. unfold generate_url.
    destruct (endswith "/api/generate" api_url) eqn:H; [done|apply endswith_app]. }
  assert (forall answer, 10 <= len (strip answer) -> truthy answer = true) as Hlong.
  { intros [|a s]; [by vm_compute|done]. }
  split; [exact Hurl|]. unfold run, generate_answer. simpl.
  set (request := {| answer_url := generate_url api_url; answer_model := model;
                     answer_prompt := format_optimized_prompt query sr;
                     answer_num_predict := 1024; answer_timeout := 300 |}).
  repeat split.
  - destruct (post request) as [code [| |[[answer|?]|]]| |]; try done;
      destruct (SearchService.is_success code); try done.
    simpl. destruct (truthy answer) eqn:Ht; [|done]. simpl.
    by destruct (len (strip answer) <? 10).
  - destruct (post request) as [code [| |[[answer|?]|]]| |] eqn:Hpost; auto;
      destruct (SearchService.is_success code) eqn:Hcode; auto.
    simpl. destruct (truthy answer) eqn:Ht; [|auto]. simpl.
    destruct (len (strip answer) <? 10) eqn:Hlen; [auto|].
    right. exists code, answer. apply Z.ltb_ge in Hlen. done.
  - intros Hlen. rewrite H, H0. simpl. rewrite (Hlong _ Hlen). simpl.
    by assert ((len (strip answer) <? 10) = false) as -> by (apply Z.ltb_ge; lia).
  - intros Hlen. rewrite H, H0. simpl.
    assert ((len (strip answer) <? 10) = true) as -> by (apply Z.ltb_lt; lia).
    by rewrite orb_true_r.
Qed.

Lemma generate_answer_or_fallback_witness :
  (generate_answer "http://localhost:11434" "llama3:8b"
     (fun _ => Answered 200 (Reply (Some (RText "Paris."))))
     "capital of France" no_results).2
  = fallback_answer "capital of France".
Proof.
  destruct (generate_answer_or_fallback "http://localhost:11434" "llama3:8b"
              (fun _ => Answered 200 (Reply (Some (RText "Paris."))))
              "capital of France" no_results) as (_ & _ & _ & Hshort).
  apply (Hshort 200 "Paris."); [reflexivity|reflexivity|by vm_compute].
Defined.

(** The health check reports the three services [ollama], [search_api]
    and [cache], the cache always as healthy, and an overall status that is
    the worst of theirs; it is healthy exactly when the LLM backend lists
    the configured model and the search probe succeeds. *)
Theorem health_overall_is_worst (model : string) (tags : tags_outcome)
    (search : probe_outcome) (cache_size : nat) :
  let r := health_check model tags search cache_size in
  exists ollama search_api cache,
    services r !! "ollama" = Some ollama /\
    services r !! "search_api" = Some search_api /\
    services r !! "cache" = Some cache /\
    status cache = "healthy" /\
    severity (overall_status r)
    = Nat.max (severity (status ollama))
        (Nat.max (severity (status search_api)) (severity (status cache))) /\
    (overall_status r = "healthy" <->
     (exists names, tags = TagsListed names /\ In (Some model) names) /\
     search = ProbeOk).
Proof.
  intros r. unfold r, health_check.
  destruct tags as [names|text].
  - destruct (existsb (fun name => bool_decide (name = Some model)) names) eqn:Hav.
    + assert (In (Some model) names) as Hin.
      { apply existsb_exists in Hav as (x & Hx & Heq).
        apply bool_decide_eq_true in Heq. by subst x. }
      destruct search; (eexists _, _, _; repeat split; try reflexivity;
                        try done; eauto).
      * by intros [_ ?].
    + assert (~ In (Some model) names) as Hnot.
      { intros Hin. apply not_true_iff_false in Hav. apply Hav.
        apply existsb_exists. exists (Some model). split; [done|].
        by apply bool_decide_eq_true. }
      destruct search; (eexists _, _, _; repeat split; try reflexivity; try done).
      * intros [(names' & [= <-] & Hin) _]. done.
      * by intros [_ ?].
  - destruct search; (eexists _, _, _; repeat split; try reflexivity; try done).
    + by intros [(names & ? & _) _].
    + by intros [_ ?].
Qed.

End AnswerFacts.

(** ** The registry over time *)

Module LifecycleFacts.
Import PyStr PyStrFacts LlmService Routes Scenarios Lifecycle RoutesFacts.

Lemma registry_step_flags (reg : gmap string stream_data) (e : registry_event) :
  map_Forall (fun _ stream => disconnected stream = false) reg ->
  map_Forall (fun _ stream => disconnected stream = false) (registry_step reg e).
Proof.
  intros Hreg. destruct e as [now stream_request uuid|rid|now]; simpl.
  - unfold track_stream, register_stream. by apply map_Forall_insert_2.
  - unfold completion_hook. by apply map_Forall_delete.
  - unfold cleanup_active_streams. intros k stream Hk.
    apply map_lookup_filter_Some in Hk as [Hk _]. by apply (Hreg k).
Qed.

Lemma registry_history_flags (history : list registry_event)
    (reg : gmap string stream_data) :
  map_Forall (fun _ stream => disconnected stream = false) reg ->
  map_Forall (fun _ stream => disconnected stream = false) (foldl registry_step reg history).
Proof.
  revert reg. induction history as [|e history IH]; intros reg Hreg; [done|].
  simpl. apply IH. by apply registry_step_flags.
Qed.

Lemma registry_after_connected (history : list registry_event) (rid : string) :
  is_disconnected (registry_after history) rid = false.
Proof.
  unfold is_disconnected.
  destruct (registry_after history !! rid) as [stream|] eqn:Hrid; [|done].
  apply (registry_history_flags history ∅ (map_Forall_empty _) rid stream Hrid).
Qed.

(** Tracking a stream puts its entry under the effective request id,
    with the flag unset whatever was there before, and touches no other
    entry; the completion hook after it leaves the registry without that
    entry, which is the registry as it was when the id was new; and when
    two requests use one id, the hook of either removes the entry of
    both. *)
Theorem track_and_finish (now : Z) (stream_request : StreamRequest) (uuid : string)
    (reg : gmap string stream_data) :
  let rid := effective_request_id stream_request uuid in
  let tracked := track_stream now stream_request uuid reg in
  tracked !! rid
  = Some {| start_time := now;
            stream_session_id := effective_session_id stream_request uuid;
            stream_query := query stream_request; disconnected := false |} /\
  is_disconnected tracked rid = false /\
  (forall other, other <> rid -> tracked !! other = reg !! other) /\
  completion_hook rid tracked = delete rid reg /\
  (reg !! rid = None -> completion_hook rid tracked = reg) /\
  (forall now' stream_request' uuid',
     effective_request_id stream_request' uuid' = rid ->
     completion_hook rid (track_stream now' stream_request' uuid' tracked) !! rid = None).
Proof.
  intros rid tracked. unfold tracked, track_stream, register_stream, completion_hook.
  fold rid. repeat split.
  - apply lookup_insert_eq.
  - unfold is_disconnected. by rewrite lookup_insert_eq.
  - intros other Hne. by apply lookup_insert_ne.
  - apply delete_insert_eq.
  - intros Hnew. rewrite delete_insert_eq. by apply delete_id.
  - intros now' stream_request' uuid' Hsame. apply lookup_delete_eq.
Qed.

(** A pass of the cache sweep in which reading some entry raises removes
    nothing; a pass in which every entry is read removes the entries
    captured more than 2 hours before it and keeps every other entry. *)
Theorem cleanup_cache_pass (now : Z) (search_cache : gmap string (option Z)) :
  ((exists key, search_cache !! key = Some None) ->
   cleanup_cache now search_cache = search_cache) /\
  ((forall key, search_cache !! key <> Some None) ->
   forall key timestamp,
     search_cache !! key = Some (Some timestamp) ->
     (now - timestamp > 2 * 60 * 60 -> cleanup_cache now search_cache !! key = None) /\
     (now - timestamp <= 2 * 60 * 60 ->
      cleanup_cache now search_cache !! key = Some (Some timestamp))).
Proof.
  unfold cleanup_cache. split.
  - intros [key Hkey]. rewrite bool_decide_eq_false_2; [done|].
    intros Hall. specialize (Hall key None Hkey). by destruct Hall.
  - intros Hread key timestamp Hkey. rewrite bool_decide_eq_true_2.
    + split; intros Hage.
      * apply map_lookup_filter_None. right. intros x Hx. simplify_eq. simpl.
        rewrite bool_decide_eq_true_2; done.
      * apply map_lookup_filter_Some. split; [done|]. simpl.
        apply bool_decide_eq_false_2. lia.
    + intros k [t|] Hk; [by eexists|]. by destruct (Hread k).
Qed.

End LifecycleFacts.

(** ** The shape of the unified stream *)

Module StreamShapeFacts.
Import PyStr PyStrFacts LlmService Routes Scenarios MoreScenarios Lifecycle RoutesFacts.

Section Shape.

Variable stream_request : StreamRequest.
Variable request_id session_id : string.
Variable search : string -> search_outcome.
Variable generate : string -> search_results -> Z -> option Z -> generation.
Variable registry_at : checkpoint -> gmap string stream_data.

Local Abbreviation polled := (Routes.polled request_id registry_at).
Local Abbreviation format_sse := (Routes.format_sse request_id session_id).
Local Abbreviation stream_search_results :=
  (Routes.stream_search_results request_id session_id registry_at).
Local Abbreviation stream_chunks := (Routes.stream_chunks request_id session_id registry_at).
Local Abbreviation search_phase :=
  (Routes.search_phase stream_request request_id session_id search registry_at).
Local Abbreviation generation_phase :=
  (Routes.generation_phase stream_request request_id session_id generate registry_at).
Local Abbreviation generate_unified_stream :=
  (Routes.generate_unified_stream stream_request request_id session_id search generate
     registry_at).
Local Abbreviation carries := (carries_ids request_id session_id).

(** *** Identifiers *)

Lemma stream_search_results_ids (idx : nat) (total : Z)
    (results : list (gmap string string)) :
  Forall carries (stream_search_results idx total results).1.
Proof.
  revert idx. induction results as [|r rs IH]; intros idx; simpl; [constructor|].
  destruct (polled (BeforeResult idx)); [constructor|].
  specialize (IH (S idx)).
  destruct (stream_search_results (S idx) total rs) as [out alive]. simpl in *.
  by constructor.
Qed.

Lemma search_phase_ids : Forall carries search_phase.1.
Proof.
  unfold Routes.search_phase.
  destruct (search (query stream_request)) as [results|e]; simpl;
    [|by repeat constructor].
  destruct (polled AfterSearch); simpl; [constructor|].
  destruct (organic results) as [|r rs]; simpl; [by repeat constructor|].
  destruct (max_search_results stream_request) as [m|]; simpl; [|by repeat constructor].
  pose proof (stream_search_results_ids 0
                (Z.min m (Z.of_nat (S (length rs))))
                (list_slice_to (r :: rs) (Z.min m (Z.of_nat (S (length rs)))))) as H.
  destruct (stream_search_results _ _ _) as [out alive]. simpl in *.
  by constructor.
Qed.

Lemma stream_chunks_ids (idx : nat) (chunk_count total_tokens : Z) (has_content : bool)
    (cs : list string) :
  Forall carries (stream_chunks idx chunk_count total_tokens has_content cs).1.
Proof.
  revert idx chunk_count total_tokens has_content.
  induction cs as [|c cs IH]; intros idx cc tt hc; simpl; [constructor|].
  destruct (polled (AfterChunk idx)); [constructor|].
  destruct (truthy c); [|apply IH].
  specialize (IH (S idx) (cc + 1) (tt + count_words c) true).
  destruct (stream_chunks (S idx) (cc + 1) (tt + count_words c) true cs) as [out r].
  by constructor.
Qed.

Lemma generation_phase_ids (results : search_results) :
  Forall carries (generation_phase results).1.
Proof.
  unfold Routes.generation_phase.
  pose proof (stream_chunks_ids 0 0 0 false
                (chunks (generate (query stream_request) results MAX_LLM_ITERATIONS
                           (timeout stream_request)))) as H.
  destruct (stream_chunks 0 0 0 false _) as [out [[[cc tt] hc]|]]; simpl in *; [|done].
  destruct (raised _); simpl.
  - apply Forall_app. split; [done|]. by repeat constructor.
  - apply Forall_app. split; [done|]. destruct hc; by repeat constructor.
Qed.

(** Every envelope of the stream carries the request id and the session
    id of the stream, whatever the search and the generator do and
    whenever the client goes. *)
Theorem envelopes_carry_ids : Forall carries generate_unified_stream.
Proof.
  unfold Routes.generate_unified_stream.
  pose proof search_phase_ids as Hsearch.
  destruct search_phase as [found [results|]]; simpl in Hsearch.
  - repeat (constructor; [done|]). apply Forall_app. split; [done|].
    destruct (polled BeforeGeneration); [constructor|].
    constructor; [done|].
    pose proof (generation_phase_ids results) as Hgen.
    destruct (generation_phase results) as [answer []]; simpl in Hgen; [|done].
    apply Forall_app. split; [done|]. by repeat constructor.
  - by repeat (constructor; [done|]).
Qed.

(** *** The end marker *)

Lemma stream_chunks_no_done (idx : nat) (chunk_count total_tokens : Z)
    (has_content : bool) (cs : list string) :
  Forall (fun e => is_done e = false)
         (stream_chunks idx chunk_count total_tokens has_content cs).1.
Proof.
  revert idx chunk_count total_tokens has_content.
  induction cs as [|c cs IH]; intros idx cc tt hc; simpl; [constructor|].
  destruct (polled (AfterChunk idx)); [constructor|].
  destruct (truthy c); [|apply IH].
  specialize (IH (S idx) (cc + 1) (tt + count_words c) true).
  destruct (stream_chunks (S idx) (cc + 1) (tt + count_words c) true cs) as [out r].
  by constructor.
Qed.

Lemma generation_phase_no_done (results : search_results) :
  Forall (fun e => is_done e = false) (generation_phase results).1.
Proof.
  unfold Routes.generation_phase.
  pose proof (stream_chunks_no_done 0 0 0 false
                (chunks (generate (query stream_request) results MAX_LLM_ITERATIONS
                           (timeout stream_request)))) as H.
  destruct (stream_chunks 0 0 0 false _) as [out [[[cc tt] hc]|]]; simpl in *; [|done].
  destruct (raised _); simpl.
  - apply Forall_app. split; [done|]. by repeat constructor.
  - apply Forall_app. split; [done|]. destruct hc; by repeat constructor.
Qed.

Lemma stream_chunks_types (idx : nat) (chunk_count total_tokens : Z)
    (has_content : bool) (cs : list string) :
  Forall (fun e => is_type "search_result" e = false)
         (stream_chunks idx chunk_count total_tokens has_content cs).1.
Proof.
  revert idx chunk_count total_tokens has_content.
  induction cs as [|c cs IH]; intros idx cc tt hc; simpl; [constructor|].
  destruct (polled (AfterChunk idx)); [constructor|].
  destruct (truthy c); [|apply IH].
  specialize (IH (S idx) (cc + 1) (tt + count_words c) true).
  destruct (stream_chunks (S idx) (cc + 1) (tt + count_words c) true cs) as [out r].
  by constructor.
Qed.

Lemma generation_phase_types (results : search_results) :
  Forall (fun e => is_type "search_result" e = false) (generation_phase results).1.
Proof.
  unfold Routes.generation_phase.
  pose proof (stream_chunks_types 0 0 0 false
                (chunks (generate (query stream_request) results MAX_LLM_ITERATIONS
                           (timeout stream_request)))) as H.
  destruct (stream_chunks 0 0 0 false _) as [out [[[cc tt] hc]|]]; simpl in *; [|done].
  destruct (raised _); simpl.
  - apply Forall_app. split; [done|]. by repeat constructor.
  - apply Forall_app. split; [done|]. destruct hc; by repeat constructor.
Qed.

(** The end marker comes at most once, and nothing follows it: the
    stream is a run of envelopes, alone or followed by the marker. *)
Theorem end_marker_only_at_the_end :
  exists body,
    existsb is_done body = false /\
    (generate_unified_stream = body \/ generate_unified_stream = body ++ [DONE]).
Proof.
  unfold Routes.generate_unified_stream.
  pose proof search_phase_quiet stream_request request_id session_id search registry_at
    as Hsearch.
  assert (Forall (fun e => is_done e = false) search_phase.1) as Hfound.
  { eapply Forall_impl; [exact Hsearch|]. by intros ? [_ ?]. }
  clear Hsearch.
  destruct search_phase as [found [results|]]; simpl in Hfound.
  - destruct (polled BeforeGeneration).
    + eexists. split; [|left; reflexivity].
      apply Forall_existsb_false. repeat (constructor; [done|]).
      apply Forall_app. by split.
    + pose proof (generation_phase_no_done results) as Hgen.
      destruct (generation_phase results) as [answer []]; simpl in Hgen.
      * exists ([format_sse "status" (Text "Processing query") [("step", MStr "init")];
                 format_sse "status" (Text "Searching the web...")
                   [("step", MStr "search_start")]] ++
                found ++
                format_sse "status" (Text "Generating answer...")
                  [("step", MStr "generation_start")] ::
                answer ++
                [format_sse "status" (Text "Request completed") [("step", MStr "complete")]]).
        split.
        -- apply Forall_existsb_false. repeat (constructor; [done|]).
           apply Forall_app. split; [done|]. constructor; [done|].
           apply Forall_app. split; [done|]. by repeat constructor.
        -- right. simpl. rewrite <- !app_assoc. simpl.
           by rewrite <- !app_assoc.
      * eexists. split; [|left; reflexivity].
        apply Forall_existsb_false. repeat (constructor; [done|]).
        apply Forall_app. split; [done|]. by constructor.
  - eexists. split; [|left; reflexivity].
    apply Forall_existsb_false. by repeat (constructor; [done|]).
Qed.

(** *** The stream of a client that stays *)

Lemma stream_search_results_connected (idx : nat) (total : Z)
    (rs : list (gmap string string)) :
  (forall i, polled (BeforeResult i) = false) ->
  stream_search_results idx total rs =
  (imap (fun i r => result_envelope request_id session_id (Z.of_nat (idx + i) + 1) total r)
        rs, true).
Proof.
  intros Hc. revert idx. induction rs as [|r rs IH]; intros idx; simpl; [done|].
  rewrite Hc, (IH (S idx)), Nat.add_0_r. unfold result_envelope. f_equal. f_equal.
  apply imap_ext. intros i x _. simpl. by rewrite Nat.add_succ_r.
Qed.

Lemma list_slice_to_min {A : Type} (l : list A) (m : Z) :
  list_slice_to l (Z.min m (Z.of_nat (length l))) =
  firstn (Z.to_nat (if m <? 0 then Z.of_nat (length l) + m else m)) l.
Proof.
  unfold list_slice_to.
  destruct (m <? 0) eqn:Hm; flags_to_Z.
  - rewrite Z.min_l by lia.
    assert ((m <? 0) = true) as -> by by apply Z.ltb_lt.
    f_equal. lia.
  - assert ((Z.min m (Z.of_nat (length l)) <? 0) = false) as -> by (apply Z.ltb_ge; lia).
    destruct (Z.le_gt_cases m (Z.of_nat (length l))).
    + by rewrite Z.min_l.
    + rewrite Z.min_r, Nat2Z.id by lia.
      rewrite !firstn_all2; [done|lia|lia].
Qed.

(** With the client connected, the search phase yields the status
    envelope and then one envelope for each result shown, in the order of
    the search, numbered from 1. A cap [m] that is not negative shows the
    first [m] results (all of them when there are fewer); a negative cap
    shows all but the last [-m]. Each envelope is labelled with the total
    [min(m, n)], which is the number shown in the first case and the
    negative cap itself in the second. *)
Theorem cap_counts_from_either_end (results : search_results) (m : Z) :
  search (query stream_request) = SearchReturned results ->
  max_search_results stream_request = Some m ->
  (forall c, polled c = false) ->
  let n := Z.of_nat (length (organic results)) in
  let shown := firstn (Z.to_nat (if m <? 0 then n + m else m)) (organic results) in
  search_phase =
    (search_complete request_id session_id n ::
     imap (fun i r => result_envelope request_id session_id (Z.of_nat i + 1) (Z.min m n) r)
          shown,
     Some results) /\
  (0 <= m -> Z.of_nat (length shown) = Z.min m n) /\
  (m < 0 -> Z.of_nat (length shown) = Z.max 0 (n + m) /\ Z.min m n = m).
Proof.
  intros Hsearch Hmax Hc n shown. split; [|split].
  - unfold Routes.search_phase. rewrite Hsearch, Hc.
    destruct (organic results) as [|r rs] eqn:Ho.
    { subst shown. by rewrite firstn_nil. }
    rewrite Hmax.
    rewrite (stream_search_results_connected 0 _ _ (fun i => Hc (BeforeResult i))).
    rewrite list_slice_to_min. done.
  - intros Hm. subst shown. rewrite length_firstn.
    assert ((m <? 0) = false) as -> by by apply Z.ltb_ge.
    fold n. lia.
  - intros Hm. subst shown. rewrite length_firstn.
    assert ((m <? 0) = true) as -> by by apply Z.ltb_lt.
    fold n. lia.
Qed.

(** A request without a cap ([max_search_results] null) loses the
    results of a search that found some: [min] raises, the stream carries
    the error and no result, and from there on it is the stream of a
    search that failed: the answer is generated from the empty result
    set. *)
Theorem missing_cap_discards_results (results : search_results) :
  search (query stream_request) = SearchReturned results ->
  organic results <> [] ->
  max_search_results stream_request = None ->
  polled AfterSearch = false ->
  search_results_of generate_unified_stream = [] /\
  generate_unified_stream =
    [format_sse "status" (Text "Processing query") [("step", MStr "init")];
     format_sse "status" (Text "Searching the web...") [("step", MStr "search_start")];
     search_complete request_id session_id (Z.of_nat (length (organic results)))] ++
    skipn 2 (Routes.generate_unified_stream stream_request request_id session_id
              (fun _ => SearchRaised min_type_error) generate registry_at).
Proof.
  intros Hsearch Hsome Hmax Hc.
  assert (generate_unified_stream =
    [format_sse "status" (Text "Processing query") [("step", MStr "init")];
     format_sse "status" (Text "Searching the web...") [("step", MStr "search_start")];
     search_complete request_id session_id (Z.of_nat (length (organic results)))] ++
    skipn 2 (Routes.generate_unified_stream stream_request request_id session_id
              (fun _ => SearchRaised min_type_error) generate registry_at)) as Hstream.
  { unfold Routes.generate_unified_stream, Routes.search_phase.
    rewrite Hsearch, Hc, Hmax. by destruct (organic results). }
  split; [|exact Hstream].
  rewrite Hstream. unfold Routes.generate_unified_stream, Routes.search_phase. simpl.
  destruct (polled BeforeGeneration); [done|]. simpl.
  assert (forall l, Forall (fun e => is_type "search_result" e = false) l ->
                    search_results_of l = []) as Hnone.
  { intros l Hl. unfold search_results_of. induction Hl as [|e l He _ IH]; [done|].
    assert (result_of e = None) as Hr.
    { destruct e as [msg|]; [|done]. simpl in *.
      destruct (data msg); [done|]. by rewrite He. }
    change (omap result_of (e :: l))
      with (match result_of e with
            | Some y => y :: omap result_of l
            | None => omap result_of l
            end).
    by rewrite Hr. }
  pose proof (generation_phase_types empty_results) as Hgen.
  destruct (generation_phase empty_results) as [answer []]; simpl in Hgen.
  - apply Hnone. apply Forall_app. split; [done|]. by repeat constructor.
  - by apply Hnone.
Qed.

Lemma stream_chunks_connected (idx : nat) (chunk_count total_tokens : Z)
    (has_content : bool) (cs : list string) :
  (forall i, polled (AfterChunk i) = false) ->
  let kept := List.filter truthy cs in
  stream_chunks idx chunk_count total_tokens has_content cs =
  (imap (fun i c => chunk_envelope request_id session_id (chunk_count + Z.of_nat i + 1) c)
        kept,
   Some (chunk_count + Z.of_nat (length kept), total_tokens + total_words kept,
         match kept with [] => has_content | _ :: _ => true end)).
Proof.
  intros Hc. revert idx chunk_count total_tokens has_content.
  induction cs as [|c cs IH]; intros idx cc tt hc; simpl.
  { by rewrite !Z.add_0_r. }
  rewrite Hc. destruct (truthy c) eqn:Hcnz; [|apply IH].
  rewrite (IH (S idx) (cc + 1) (tt + count_words c) true). simpl.
  f_equal.
  - unfold chunk_envelope at 2. rewrite Z.add_0_r. f_equal.
    apply imap_ext. intros i x _. simpl. f_equal. lia.
  - replace (cc + 1 + Z.of_nat (length (List.filter truthy cs)))
      with (cc + Z.of_nat (S (length (List.filter truthy cs)))) by lia.
    rewrite Z.add_assoc. by destruct (List.filter truthy cs).
Qed.

(** With the client connected, the generation phase forwards the
    generator's chunks in order, the empty ones left out, numbered from 1
    without gaps. When the generator ends, the closing status envelope
    reports the number of chunks forwarded and the words in them, after
    the apology when nothing was forwarded; when it raises, the chunks
    forwarded so far are followed by the error and the apology of the
    [except] branch. *)
Theorem connected_generation (results : search_results) :
  (forall i, polled (AfterChunk i) = false) ->
  let run := generate (query stream_request) results MAX_LLM_ITERATIONS
                      (timeout stream_request) in
  let kept := List.filter truthy (chunks run) in
  generation_phase results =
  (imap (fun i c => chunk_envelope request_id session_id (Z.of_nat i + 1) c) kept ++
   match raised run with
   | Some e => generation_error request_id session_id e
   | None =>
       match kept with
       | [] => [no_content_fallback request_id session_id]
       | _ :: _ => []
       end ++
       [generation_complete request_id session_id (total_words kept)
          (Z.of_nat (length kept))]
   end, true).
Proof.
  intros Hc run kept. unfold Routes.generation_phase. fold run.
  rewrite (stream_chunks_connected 0 0 0 false (chunks run) Hc). fold kept.
  destruct (raised run); [done|].
  by destruct kept.
Qed.

End Shape.

(** The generator of [LlmService] behind the orchestrator: with the
    client connected, every fragment the generator yields becomes an
    answer chunk, in order and numbered from 1; the orchestrator's own
    apology for an empty answer is never sent; and the closing envelope
    counts between 1 and 152 chunks. *)
Theorem generator_fragments_all_forwarded (stream_request : StreamRequest)
    (request_id session_id : string)
    (generate : string -> search_results -> Z -> option Z -> generation)
    (registry_at : checkpoint -> gmap string stream_data)
    (settings : Settings) (llm : generate_request -> backend) (fuel : nat)
    (results : search_results) (out : list string) :
  generate_answer_streaming settings llm fuel (query stream_request) results
    MAX_LLM_ITERATIONS (timeout stream_request) = Some out ->
  generate (query stream_request) results MAX_LLM_ITERATIONS (timeout stream_request)
  = {| chunks := out; raised := None |} ->
  (forall i, Routes.polled request_id registry_at (AfterChunk i) = false) ->
  Routes.generation_phase stream_request request_id session_id generate registry_at results
  = (imap (fun i c => chunk_envelope request_id session_id (Z.of_nat i + 1) c) out ++
     [generation_complete request_id session_id (total_words out)
        (Z.of_nat (length out))], true) /\
  1 <= Z.of_nat (length out) <= 152.
Proof.
  intros Hout Hgen Hc.
  assert (Forall (fun x => truthy x = true) out /\ out <> [] /\
          Z.of_nat (length out) <= 152) as (Htruthy & Hsome & Hbound).
  { unfold generate_answer_streaming in Hout.
    destruct (stream_loop _ _ _ _ _ _) as [[[yielded st] e]|] eqn:Hloop; [|done].
    injection Hout as <-. split; [|split].
    - apply Forall_app. split; [|apply StreamsFacts.after_loop_truthy].
      by apply (StreamsFacts.stream_loop_truthy _ _ _ _ _ _ _ _ _ Hloop).
    - apply LlmServiceFacts.after_loop_nonempty.
      by apply (LlmServiceFacts.stream_loop_yielded _ _ _ _ _ _ _ _ _ Hloop).
    - pose proof (LlmServiceFacts.stream_loop_bound (query stream_request)
                    _ _ _ _ _ _ _ _ _ Hloop) as Hb.
      unfold MAX_LLM_ITERATIONS in *. simpl in Hb.
      assert (Z.of_nat (length (yielded ++ after_loop (query stream_request) 150 st e))
              <= Z.max 1 150 + 2) as Hle.
      { apply Hb; [done| |by left]. split; [done|lia]. }
      lia. }
  assert (List.filter truthy out = out) as Hkept.
  { clear -Htruthy. induction Htruthy as [|x l Hx _ IH]; [done|].
    simpl. by rewrite Hx, IH. }
  split.
  - unfold Routes.generation_phase. rewrite Hgen. simpl.
    rewrite (stream_chunks_connected request_id session_id registry_at 0 0 0 false out Hc).
    rewrite Hkept. simpl. by destruct out.
  - split; [|done]. destruct out; [done|]. simpl. lia.
Qed.

Lemma cap_counts_from_either_end_witness :
  search_phase (request_capped (Some (-2))) "r-1" "r-1" good_search client_stays
  = (search_complete "r-1" "r-1" 7 ::
     imap (fun i r => result_envelope "r-1" "r-1" (Z.of_nat i + 1) (-2) r)
          (replicate 5 ∅),
     Some seven_results).
Proof.
  destruct (cap_counts_from_either_end (request_capped (Some (-2))) "r-1" "r-1"
              good_search client_stays seven_results (-2)) as [Hphase _];
    [reflexivity|reflexivity|intros c; reflexivity|].
  exact Hphase.
Defined.

Lemma missing_cap_discards_results_witness :
  search_results_of
    (generate_unified_stream (request_capped None) "r-1" "r-1" good_search
       paris_generation client_stays) = [].
Proof.
  destruct (missing_cap_discards_results (request_capped None) "r-1" "r-1" good_search
              paris_generation client_stays seven_results) as [Hnone _];
    [reflexivity|discriminate|reflexivity|reflexivity|].
  exact Hnone.
Defined.

Lemma connected_generation_witness :
  generation_phase request0 "r-1" "r-1" broken_generation client_stays seven_results
  = ([chunk_envelope "r-1" "r-1" 1 "Paris";
      chunk_envelope "r-1" "r-1" 2 " is the capital."] ++
     generation_error "r-1" "r-1"
       {| type_name := "RuntimeError"; text := "connection lost" |}, true).
Proof.
  apply (connected_generation request0 "r-1" "r-1" broken_generation client_stays
           seven_results).
  intros i. reflexivity.
Defined.

Lemma generator_fragments_all_forwarded_witness :
  generation_phase request0 "r-1" "r-1" two_texts_generation client_stays seven_results
  = ([chunk_envelope "r-1" "r-1" 1 "Paris is the capital";
      chunk_envelope "r-1" "r-1" 2 " of France.";
      generation_complete "r-1" "r-1" 6 2], true).
Proof.
  destruct (generator_fragments_all_forwarded request0 "r-1" "r-1" two_texts_generation
              client_stays settings0 two_texts 3 seven_results
              ["Paris is the capital"; " of France."]) as [Hphase _];
    [reflexivity|reflexivity|intros i; reflexivity|].
  exact Hphase.
Defined.

End StreamShapeFacts.

(** ** The GET parameters of the unified endpoint *)

Module EndpointFacts.
Import PyStr PyStrFacts LlmService Routes.

(** The three ways a GET on the unified endpoint ends. It is refused
    with status 400 exactly when the query is missing or empty. A
    [ValueError] means that a numeric parameter was given and does not
    read as a number. Otherwise the request carries the query as given;
    the identifier, the cap on the results and the timeout are always
    set; and each numeric parameter that was given is the one the request
    carries. *)
Theorem unified_get_outcomes (py_int : string -> option Z) (py_float : string -> option Q)
    (query_params : gmap string string) (uuid : string) :
  match unified_endpoint_get py_int py_float query_params uuid with
  | inl (HTTPError code text) =>
      code = 400 /\
      (query_params !! "query" = None \/ query_params !! "query" = Some EmptyString)
  | inl ValueError =>
      (exists q, query_params !! "query" = Some q /\ q <> EmptyString) /\
      exists key s,
        query_params !! key = Some s /\
        (key ∈ ["max_search_results"; "max_tokens"; "top_k"; "timeout"] /\ py_int s = None \/
         key ∈ ["temperature"; "top_p"] /\ py_float s = None)
  | inr r =>
      query_params !! "query" = Some (query r) /\ query r <> EmptyString /\
      is_Some (request_id r) /\ is_Some (max_search_results r) /\ is_Some (timeout r) /\
      (forall s, query_params !! "max_search_results" = Some s ->
                 max_search_results r = py_int s) /\
      (forall s, query_params !! "temperature" = Some s -> temperature r = py_float s) /\
      (forall s, query_params !! "max_tokens" = Some s -> max_tokens r = py_int s) /\
      (forall s, query_params !! "top_p" = Some s -> top_p r = py_float s) /\
      (forall s, query_params !! "top_k" = Some s -> top_k r = py_int s) /\
      (forall s, query_params !! "timeout" = Some s -> timeout r = py_int s)
  end.
Proof.
  unfold unified_endpoint_get.
  destruct (query_params !! "query") as [q|] eqn:Hq; [|by split; [|left]].
  destruct q as [|a q]; simpl; [by split; [|right]|].
  unfold int_param, float_param.
  destruct (query_params !! "max_search_results") as [s1|] eqn:H1;
    [destruct (py_int s1) as [v1|] eqn:E1|]; simpl;
    try (split; [by eexists|]; exists "max_search_results", s1; split; [done|left; split; [set_solver|done]]);
  (destruct (query_params !! "temperature") as [s2|] eqn:H2;
    [destruct (py_float s2) as [v2|] eqn:E2|]; simpl;
    try (split; [by eexists|]; exists "temperature", s2; split; [done|right; split; [set_solver|done]]));
  (destruct (query_params !! "max_tokens") as [s3|] eqn:H3;
    [destruct (py_int s3) as [v3|] eqn:E3|]; simpl;
    try (split; [by eexists|]; exists "max_tokens", s3; split; [done|left; split; [set_solver|done]]));
  (destruct (query_params !! "top_p") as [s4|] eqn:H4;
    [destruct (py_float s4) as [v4|] eqn:E4|]; simpl;
    try (split; [by eexists|]; exists "top_p", s4; split; [done|right; split; [set_solver|done]]));
  (destruct (query_params !! "top_k") as [s5|] eqn:H5;
    [destruct (py_int s5) as [v5|] eqn:E5|]; simpl;
    try (split; [by eexists|]; exists "top_k", s5; split; [done|left; split; [set_solver|done]]));
  (destruct (query_params !! "timeout") as [s6|] eqn:H6;
    [destruct (py_int s6) as [v6|] eqn:E6|]; simpl;
    try (split; [by eexists|]; exists "timeout", s6; split; [done|left; split; [set_solver|done]]));
  repeat split; eauto; intros; by simplify_eq.
Qed.

End EndpointFacts.

(** ** What the search client returns *)

Module SearchReturnFacts.
Import PyStr LlmService SearchService.

(** [search_serper] returns a result exactly when the backend answered
    its one request with a success status and a body that reads as
    results, and then it returns that body; and an [HTTPException] it
    raises never carries a success status. *)
Theorem search_serper_returns (key api : string) (float_str : Q -> string)
    (query : string) (timeout : Q) (w : network) :
  let request := {| url := api; api_key := key; q := query; gl := "us"; hl := "en";
                    post_timeout := timeout |} in
  let outcome := answer_to w (length (sent w)) request in
  let run := search_serper key api float_str query timeout w in
  (forall result,
     run.2 = inr result <->
     exists r, outcome = Responded r /\ is_success (status_code r) = true /\
               body r = inr result) /\
  (forall e, run.2 = inl e -> is_success (http_status e) = false).
Proof.
  intros request outcome run.
  assert (run = search_serper key api float_str query timeout w) as Hrun by done.
  unfold search_serper, mbind, M_bind, client_post in Hrun. simpl in Hrun.
  fold request in Hrun. fold outcome in Hrun.
  split.
  - intros result. rewrite Hrun. split.
    + destruct outcome as [r|[] ?|?]; try done.
      destruct (is_success (status_code r)) eqn:Hok.
      * destruct (body r) eqn:Hbody; [done|]. intros [= <-]. by exists r.
      * by destruct (status_code r =? 403).
    + intros (r & -> & -> & ->). done.
  - intros e. rewrite Hrun.
    destruct outcome as [r|[] ?|?]; try (by intros [= <-]).
    destruct (is_success (status_code r)) eqn:Hok.
    + destruct (body r); [by intros [= <-]|done].
    + destruct (status_code r =? 403); by intros [= <-].
Qed.

End SearchReturnFacts.

(** ** What the prompt holds *)

Module PromptContentFacts.
Import PyStr PyStrFacts LlmService ConfigFacts.

Lemma contains_refl (s : string) : contains s s = true.
Proof. apply contains_startswith, startswith_refl. Qed.

Lemma contains_here (s t : string) : contains s (s +:+ t) = true.
Proof. apply contains_app, contains_refl. Qed.

Lemma contains_app_r (sub s t : string) :
  contains sub t = true -> contains sub (s +:+ t) = true.
Proof.
  intros H. induction s as [|a s IH].
  - by rewrite str_app_nil_l.
  - rewrite str_app_cons. simpl. rewrite IH. apply orb_true_r.
Qed.

Lemma contains_concat (sub : string) (l : list string) (k : nat) (s : string) :
  l !! k = Some s -> contains sub s = true -> contains sub (concat l) = true.
Proof.
  revert k. induction l as [|x l IH]; intros k Hk Hs; [done|].
  change (concat (x :: l)) with (x +:+ concat l).
  destruct k as [|k]; simpl in Hk.
  - simplify_eq. by apply contains_app.
  - apply contains_app_r. by apply (IH k).
Qed.

(** The part is in the text: found by going through the text's pieces. *)
Ltac find_part :=
  repeat first [ apply contains_refl | apply contains_here | apply contains_app_r ].

(** Whatever the query and the results, the prompt holds the query as
    it was given, the instruction to end with the sentinel the streaming
    generator looks for, and, for each of the first five results, its
    title, its link and its snippet (the snippet cut as the formatter
    cuts it; the formatter's placeholder for a field that is missing). *)
Theorem prompt_contents (query : string) (sr : search_results) :
  let prompt := format_optimized_prompt query sr in
  contains query prompt = true /\
  contains end_token prompt = true /\
  forall k result,
    firstn 5 (organic sr) !! k = Some result ->
    contains (default "No Title" (result !! "title")) prompt = true /\
    contains (default "No Link" (result !! "link")) prompt = true /\
    contains (ellipsize 400 397 (default "No Snippet" (result !! "snippet"))) prompt = true.
Proof.
  intros prompt. subst prompt. unfold format_optimized_prompt. split; [|split].
  - apply contains_app. unfold prompt_header. find_part.
  - do 5 apply contains_app_r. by vm_compute.
  - intros k result Hk.
    assert (forall part,
              contains part (result_section (S k) result) = true ->
              contains part
                (prompt_header query +:+ featured_section sr +:+ "SEARCH RESULTS:" +:+
                 nl +:+
                 concat (imap (fun k r => result_section (S k) r) (firstn 5 (organic sr)))
                 +:+ prompt_instructions) = true) as Hpart.
    { intros part Hin. do 4 apply contains_app_r. apply contains_app.
      apply (contains_concat _ _ k (result_section (S k) result)); [|done].
      rewrite list_lookup_imap. by rewrite Hk. }
    repeat split; apply Hpart; unfold result_section; find_part.
Qed.

End PromptContentFacts.

(** ** The stream with its generator *)

Module PipelineFacts.
Import PyStr PyStrFacts LlmService Routes Scenarios MoreScenarios Lifecycle Pipeline.
Import PromptFacts RoutesFacts LifecycleFacts StreamShapeFacts PromptContentFacts.

(** *** Helpers *)

Lemma filter_imap_nil {A : Type} (p : sse -> bool) (f : nat -> A -> sse) (l : list A) :
  (forall i x, p (f i x) = false) -> List.filter p (imap f l) = [].
Proof.
  revert f. induction l as [|x l IH]; intros f H; [done|].
  simpl. rewrite H. apply IH. intros i y. apply H.
Qed.

(** What the generator yields when it finishes: fragments, none of them
    empty, and at least one. *)
Lemma generator_output (settings : Settings) (llm : generate_request -> backend)
    (fuel : nat) (query : string) (results : search_results) (max_iterations : Z)
    (timeout : option Z) (out : list string) :
  generate_answer_streaming settings llm fuel query results max_iterations timeout
  = Some out ->
  Forall (fun x => truthy x = true) out /\ out <> [].
Proof.
  unfold generate_answer_streaming.
  destruct (stream_loop _ _ _ _ _ _) as [[[yielded st] e]|] eqn:Hloop; [|done].
  intros [= <-]. split.
  - apply Forall_app. split; [|apply StreamsFacts.after_loop_truthy].
    by apply (StreamsFacts.stream_loop_truthy _ _ _ _ _ _ _ _ _ Hloop).
  - apply LlmServiceFacts.after_loop_nonempty.
    by apply (LlmServiceFacts.stream_loop_yielded _ _ _ _ _ _ _ _ _ Hloop).
Qed.

(** The generation phase on a finished run of such fragments, the client
    connected: each fragment is forwarded, and the closing envelope
    follows. *)
Lemma generation_phase_forwards (stream_request : StreamRequest)
    (request_id session_id : string)
    (registry_at : checkpoint -> gmap string stream_data)
    (results : search_results) (out : list string) :
  Forall (fun x => truthy x = true) out -> out <> [] ->
  (forall i, polled request_id registry_at (AfterChunk i) = false) ->
  generation_phase stream_request request_id session_id
    (fun _ _ _ _ => {| chunks := out; raised := None |}) registry_at results
  = (imap (fun i c => chunk_envelope request_id session_id (Z.of_nat i + 1) c) out ++
     [generation_complete request_id session_id (total_words out)
        (Z.of_nat (length out))], true).
Proof.
  intros Htruthy Hsome Hc.
  assert (List.filter truthy out = out) as Hkept.
  { clear -Htruthy. induction Htruthy as [|x l Hx _ IH]; [done|].
    simpl. by rewrite Hx, IH. }
  unfold generation_phase. simpl.
  rewrite (stream_chunks_connected request_id session_id registry_at 0 0 0 false out Hc).
  rewrite Hkept. simpl. by destruct out.
Qed.

(** The search phase of a search that returned, under an integer cap,
    the client connected. *)
Lemma search_phase_capped (stream_request : StreamRequest)
    (request_id session_id : string) (search : string -> search_outcome)
    (registry_at : checkpoint -> gmap string stream_data)
    (results : search_results) (m : Z) :
  search (query stream_request) = SearchReturned results ->
  max_search_results stream_request = Some m ->
  polled request_id registry_at AfterSearch = false ->
  (forall i, polled request_id registry_at (BeforeResult i) = false) ->
  let n := Z.of_nat (length (organic results)) in
  search_phase stream_request request_id session_id search registry_at =
  (search_complete request_id session_id n ::
   imap (fun i r => result_envelope request_id session_id (Z.of_nat i + 1) (Z.min m n) r)
        (firstn (Z.to_nat (if m <? 0 then n + m else m)) (organic results)),
   Some results).
Proof.
  intros Hsearch Hmax Hafter Hc n. subst n.
  unfold search_phase. rewrite Hsearch, Hafter.
  destruct (organic results) as [|r rs] eqn:Ho.
  { by rewrite firstn_nil. }
  rewrite Hmax.
  rewrite (stream_search_results_connected request_id session_id registry_at 0 _ _ Hc).
  by rewrite list_slice_to_min.
Qed.

(** With the client connected, the search phase hands results on. *)
Lemma search_phase_hands_on (stream_request : StreamRequest)
    (request_id session_id : string) (search : string -> search_outcome)
    (registry_at : checkpoint -> gmap string stream_data) :
  (forall c, polled request_id registry_at c = false) ->
  exists found results,
    search_phase stream_request request_id session_id search registry_at
    = (found, Some results).
Proof.
  intros Hc. unfold search_phase.
  destruct (search (query stream_request)) as [results|e]; [|eauto].
  rewrite Hc. destruct (organic results) as [|r rs]; [eauto|].
  destruct (max_search_results stream_request) as [m|]; [|eauto].
  rewrite (stream_search_results_connected request_id session_id registry_at 0 _ _
             (fun i => Hc (BeforeResult i))).
  eauto.
Qed.

(** The search phase and the loop over the chunks see the registry
    through the checks alone. *)
Lemma search_phase_connected_eq (stream_request : StreamRequest)
    (request_id session_id : string) (search : string -> search_outcome)
    (reg reg' : checkpoint -> gmap string stream_data) :
  (forall c, polled request_id reg c = false) ->
  (forall c, polled request_id reg' c = false) ->
  search_phase stream_request request_id session_id search reg
  = search_phase stream_request request_id session_id search reg'.
Proof.
  intros Hc Hc'. unfold search_phase.
  destruct (search (query stream_request)) as [results|e]; [|done].
  rewrite Hc, Hc'. destruct (organic results) as [|r rs]; [done|].
  destruct (max_search_results stream_request) as [m|]; [|done].
  rewrite (stream_search_results_connected request_id session_id reg 0 _ _
             (fun i => Hc (BeforeResult i))).
  by rewrite (stream_search_results_connected request_id session_id reg' 0 _ _
                (fun i => Hc' (BeforeResult i))).
Qed.

Lemma stream_chunks_connected_eq (request_id session_id : string)
    (reg reg' : checkpoint -> gmap string stream_data) (cs : list string) :
  (forall c, polled request_id reg c = false) ->
  (forall c, polled request_id reg' c = false) ->
  stream_chunks request_id session_id reg 0 0 0 false cs
  = stream_chunks request_id session_id reg' 0 0 0 false cs.
Proof.
  intros Hc Hc'.
  rewrite (stream_chunks_connected request_id session_id reg 0 0 0 false cs
             (fun i => Hc (AfterChunk i))).
  by rewrite (stream_chunks_connected request_id session_id reg' 0 0 0 false cs
                (fun i => Hc' (AfterChunk i))).
Qed.

(** The stream of a connected client whose generator finishes. *)
Lemma unified_stream_finishes (settings : Settings) (llm : generate_request -> backend)
    (fuel : nat) (stream_request : StreamRequest) (request_id session_id : string)
    (search : string -> search_outcome)
    (registry_at : checkpoint -> gmap string stream_data)
    (found : list sse) (results : search_results) (out : list string) :
  search_phase stream_request request_id session_id search registry_at
  = (found, Some results) ->
  polled request_id registry_at BeforeGeneration = false ->
  (forall i, polled request_id registry_at (AfterChunk i) = false) ->
  generate_answer_streaming settings llm fuel (query stream_request) results
    MAX_LLM_ITERATIONS (timeout stream_request) = Some out ->
  unified_stream settings llm fuel stream_request request_id session_id search registry_at
  = Closed
      ([format_sse request_id session_id "status" (Text "Processing query")
          [("step", MStr "init")];
        format_sse request_id session_id "status" (Text "Searching the web...")
          [("step", MStr "search_start")]] ++
       found ++
       [format_sse request_id session_id "status" (Text "Generating answer...")
          [("step", MStr "generation_start")]] ++
       imap (fun i c => chunk_envelope request_id session_id (Z.of_nat i + 1) c) out ++
       [generation_complete request_id session_id (total_words out)
          (Z.of_nat (length out));
        format_sse request_id session_id "status" (Text "Request completed")
          [("step", MStr "complete")];
        DONE]).
Proof.
  intros Hphase Hbefore Hchunks Hout.
  destruct (generator_output _ _ _ _ _ _ _ _ Hout) as [Htruthy Hsome].
  unfold unified_stream. rewrite Hphase, Hbefore.
  unfold generation_of. rewrite Hout. simpl.
  rewrite (generation_phase_forwards _ _ _ _ _ _ Htruthy Hsome Hchunks).
  by rewrite <- !app_assoc.
Qed.

(** The two forms of the orchestrator agree: when the generator's run
    ends, the stream has ended, and it is the stream over that run. *)
Lemma unified_stream_over_finished_run (settings : Settings)
    (llm : generate_request -> backend) (fuel : nat) (stream_request : StreamRequest)
    (request_id session_id : string) (search : string -> search_outcome)
    (generate : string -> search_results -> Z -> option Z -> generation)
    (registry_at : checkpoint -> gmap string stream_data) :
  (forall results,
     generation_of settings llm fuel (query stream_request) results MAX_LLM_ITERATIONS
       (timeout stream_request)
     = Some (generate (query stream_request) results MAX_LLM_ITERATIONS
               (timeout stream_request))) ->
  unified_stream settings llm fuel stream_request request_id session_id search registry_at
  = Closed (generate_unified_stream stream_request request_id session_id search generate
              registry_at).
Proof.
  intros Hrun. unfold unified_stream, generate_unified_stream.
  destruct (search_phase _ _ _ _ _) as [found [results|]]; [|done].
  destruct (polled request_id registry_at BeforeGeneration); [by rewrite app_nil_r|].
  rewrite Hrun. unfold generation_phase.
  destruct (stream_chunks _ _ _ _ _ _ _ _) as [out [[[cc tt] hc]|]]; simpl;
    [|by rewrite <- !app_assoc].
  destruct (raised _); simpl; by rewrite <- !app_assoc.
Qed.

(** On the backend that sends empty responses for ever, the generator
    yields nothing, however many events were read. *)
Lemma blank_backend_yields_nothing (fuel : nat) (mi : Z) (i : nat) (st : gen_state)
    (acc : list string) :
  yielded_within fuel mi blank_backend i st acc = acc.
Proof.
  revert i acc. induction fuel as [|fuel IH]; intros i acc; [done|].
  simpl. rewrite app_nil_r. apply IH.
Qed.

Lemma blank_backend_waits (fuel : nat) :
  unified_stream settings0 (fun _ => blank_backend) fuel request0 "r-1" "r-1"
    failing_search client_stays
  = Waiting
      [format_sse "r-1" "r-1" "status" (Text "Processing query") [("step", MStr "init")];
       format_sse "r-1" "r-1" "status" (Text "Searching the web...")
         [("step", MStr "search_start")];
       search_error "r-1" "r-1" timeout_error;
       format_sse "r-1" "r-1" "status" (Text "Generating answer...")
         [("step", MStr "generation_start")]].
Proof.
  unfold unified_stream, generation_of, generate_answer_streaming.
  change (search_phase request0 "r-1" "r-1" failing_search client_stays)
    with ([search_error "r-1" "r-1" timeout_error], Some empty_results).
  change (polled "r-1" client_stays BeforeGeneration) with false.
  cbv iota beta.
  rewrite LlmServiceFacts.blank_backend_loops. simpl.
  by rewrite blank_backend_yields_nothing.
Qed.

(** *** Search failure *)

(** C4, as amended. The search call raises; the checks of the generation
    phase do not find the stream marked as disconnected; and the answer
    generator, run on the empty result set, finishes. Then the stream
    ends, and it is: the two opening status envelopes, the error envelope
    of the search stage, the status envelope that opens the generation,
    one answer chunk for each fragment of the generator's answer to the
    empty result set, the closing status of the generation, the final
    status envelope and the end marker. The error envelope of the search
    stage is the only error envelope in it. *)
Theorem search_failure_fallback (settings : Settings) (llm : generate_request -> backend)
    (fuel : nat) (stream_request : StreamRequest) (request_id session_id : string)
    (search : string -> search_outcome)
    (registry_at : checkpoint -> gmap string stream_data)
    (e : py_exception) (out : list string) :
  search (query stream_request) = SearchRaised e ->
  polled request_id registry_at BeforeGeneration = false ->
  (forall i, polled request_id registry_at (AfterChunk i) = false) ->
  generate_answer_streaming settings llm fuel (query stream_request) empty_results
    MAX_LLM_ITERATIONS (timeout stream_request) = Some out ->
  let stream :=
    [format_sse request_id session_id "status" (Text "Processing query")
       [("step", MStr "init")];
     format_sse request_id session_id "status" (Text "Searching the web...")
       [("step", MStr "search_start")];
     search_error request_id session_id e;
     format_sse request_id session_id "status" (Text "Generating answer...")
       [("step", MStr "generation_start")]] ++
    imap (fun i c => chunk_envelope request_id session_id (Z.of_nat i + 1) c) out ++
    [generation_complete request_id session_id (total_words out) (Z.of_nat (length out));
     format_sse request_id session_id "status" (Text "Request completed")
       [("step", MStr "complete")];
     DONE] in
  unified_stream settings llm fuel stream_request request_id session_id search registry_at
  = Closed stream /\
  List.filter (is_type "error") stream = [search_error request_id session_id e].
Proof.
  intros Hsearch Hbefore Hchunks Hout stream. split.
  - rewrite (unified_stream_finishes settings llm fuel stream_request request_id
               session_id search registry_at [search_error request_id session_id e]
               empty_results out); [done| |done|done|done].
    unfold search_phase. by rewrite Hsearch.
  - subst stream. simpl. rewrite List.filter_app.
    rewrite filter_imap_nil by done. done.
Qed.

Lemma search_failure_fallback_witness :
  unified_stream settings0 two_texts 3 request0 "r-1" "r-1" failing_search client_stays
  = Closed
      [format_sse "r-1" "r-1" "status" (Text "Processing query") [("step", MStr "init")];
       format_sse "r-1" "r-1" "status" (Text "Searching the web...")
         [("step", MStr "search_start")];
       search_error "r-1" "r-1" timeout_error;
       format_sse "r-1" "r-1" "status" (Text "Generating answer...")
         [("step", MStr "generation_start")];
       chunk_envelope "r-1" "r-1" 1 "Paris is the capital";
       chunk_envelope "r-1" "r-1" 2 " of France.";
       generation_complete "r-1" "r-1" 6 2;
       format_sse "r-1" "r-1" "status" (Text "Request completed")
         [("step", MStr "complete")];
       DONE].
Proof.
  destruct (search_failure_fallback settings0 two_texts 3 request0 "r-1" "r-1"
              failing_search client_stays timeout_error
              ["Paris is the capital"; " of France."]) as [Hstream _];
    [reflexivity|reflexivity|intros i; reflexivity|reflexivity|].
  exact Hstream.
Defined.

(** The search times out, the client stays, and the generator's backend
    goes on sending frames with an empty response: after the envelope that
    opens the generation the stream waits for a fragment that never comes.
    However many frames the backend has sent, the stream has not ended: no
    answer, no final status envelope, no end marker. *)
Lemma search_failure_then_waiting :
  unified_stream settings0 (fun _ => blank_backend) 1000 request0 "r-1" "r-1"
    failing_search client_stays
  = Waiting
      [format_sse "r-1" "r-1" "status" (Text "Processing query") [("step", MStr "init")];
       format_sse "r-1" "r-1" "status" (Text "Searching the web...")
         [("step", MStr "search_start")];
       search_error "r-1" "r-1" timeout_error;
       format_sse "r-1" "r-1" "status" (Text "Generating answer...")
         [("step", MStr "generation_start")]] /\
  ~ exists fuel stream,
      unified_stream settings0 (fun _ => blank_backend) fuel request0 "r-1" "r-1"
        failing_search client_stays = Closed stream.
Proof.
  split; [apply blank_backend_waits|].
  intros (fuel & stream & H). by rewrite blank_backend_waits in H.
Qed.

(** *** A registry entry that is gone *)

Lemma generation_phase_connected_eq (stream_request : StreamRequest)
    (request_id session_id : string)
    (generate : string -> search_results -> Z -> option Z -> generation)
    (reg reg' : checkpoint -> gmap string stream_data) (results : search_results) :
  (forall c, polled request_id reg c = false) ->
  (forall c, polled request_id reg' c = false) ->
  generation_phase stream_request request_id session_id generate reg results
  = generation_phase stream_request request_id session_id generate reg' results.
Proof.
  intros Hc Hc'. unfold generation_phase.
  by rewrite (stream_chunks_connected_eq request_id session_id reg reg' _ Hc Hc').
Qed.

(** Two registries in which no check finds the stream marked give the
    same run of the stream. *)
Lemma unified_stream_connected_eq (settings : Settings)
    (llm : generate_request -> backend) (fuel : nat) (stream_request : StreamRequest)
    (request_id session_id : string) (search : string -> search_outcome)
    (reg reg' : checkpoint -> gmap string stream_data) :
  (forall c, polled request_id reg c = false) ->
  (forall c, polled request_id reg' c = false) ->
  unified_stream settings llm fuel stream_request request_id session_id search reg
  = unified_stream settings llm fuel stream_request request_id session_id search reg'.
Proof.
  intros Hc Hc'. unfold unified_stream.
  rewrite (search_phase_connected_eq _ _ _ _ reg reg' Hc Hc').
  destruct (search_phase _ _ _ _ reg') as [found [results|]]; [|done].
  rewrite Hc, Hc'.
  destruct (generation_of _ _ _ _ _ _ _) as [run|].
  - by rewrite (generation_phase_connected_eq _ _ _ _ reg reg' _ Hc Hc').
  - by rewrite (stream_chunks_connected_eq _ _ reg reg' _ Hc Hc').
Qed.

Lemma unmarked_is_connected (reg : gmap string stream_data) (rid : string) :
  reg !! rid = None \/
  (exists entry, reg !! rid = Some entry /\ disconnected entry = false) ->
  is_disconnected reg rid = false.
Proof.
  unfold is_disconnected. intros [->|(entry & -> & ?)]; done.
Qed.

(** C10, as amended. The disconnect check answers false whenever the
    registry has no entry for the request; the completion hook and the
    sweep of an entry older than 15 minutes leave no entry, whatever its
    flag was. So for a stream whose entry, at each check, is gone or is
    there with its flag unset (the entry may go at any moment of the
    stream): at every moment the stream is where the stream of a client
    whose entry stays would be; and when the search returns, under an
    integer cap, and the answer generator finishes, the stream ends, and it
    is the two opening envelopes, the status and the results of the
    search, the status that opens the generation, an answer chunk for each
    fragment of the generator's answer, the closing status of the
    generation, the final status envelope and the end marker. *)
Theorem absent_entry_is_connected :
  (forall (reg : gmap string stream_data) rid,
     reg !! rid = None -> is_disconnected reg rid = false) /\
  (forall (reg : gmap string stream_data) rid,
     is_disconnected (completion_hook rid reg) rid = false) /\
  (forall (reg : gmap string stream_data) rid entry now,
     reg !! rid = Some entry -> now - start_time entry > 15 * 60 ->
     is_disconnected (cleanup_active_streams now reg) rid = false) /\
  (forall settings llm fuel stream_request request_id session_id search registry_at,
     (forall c, registry_at c !! request_id = None \/
                exists entry, registry_at c !! request_id = Some entry /\
                              disconnected entry = false) ->
     (forall now,
        unified_stream settings llm fuel stream_request request_id session_id search
          registry_at
        = unified_stream settings llm fuel stream_request request_id session_id search
            (fun _ => register_stream now request_id session_id (query stream_request) ∅)) /\
     (forall results m out,
        search (query stream_request) = SearchReturned results ->
        max_search_results stream_request = Some m ->
        generate_answer_streaming settings llm fuel (query stream_request) results
          MAX_LLM_ITERATIONS (timeout stream_request) = Some out ->
        let n := Z.of_nat (length (organic results)) in
        unified_stream settings llm fuel stream_request request_id session_id search
          registry_at
        = Closed
            ([format_sse request_id session_id "status" (Text "Processing query")
                [("step", MStr "init")];
              format_sse request_id session_id "status" (Text "Searching the web...")
                [("step", MStr "search_start")];
              search_complete request_id session_id n] ++
             imap (fun i r => result_envelope request_id session_id (Z.of_nat i + 1)
                                (Z.min m n) r)
                  (firstn (Z.to_nat (if m <? 0 then n + m else m)) (organic results)) ++
             [format_sse request_id session_id "status" (Text "Generating answer...")
                [("step", MStr "generation_start")]] ++
             imap (fun i c => chunk_envelope request_id session_id (Z.of_nat i + 1) c) out ++
             [generation_complete request_id session_id (total_words out)
                (Z.of_nat (length out));
              format_sse request_id session_id "status" (Text "Request completed")
                [("step", MStr "complete")];
              DONE]))).
Proof.
  assert (forall (reg : gmap string stream_data) rid,
            reg !! rid = None -> is_disconnected reg rid = false) as Habsent.
  { intros reg rid H. unfold is_disconnected. by rewrite H. }
  split; [exact Habsent|]. split; [|split].
  - intros reg rid. apply Habsent. unfold completion_hook. apply lookup_delete_eq.
  - intros reg rid entry now Hentry Hold. apply Habsent.
    unfold cleanup_active_streams. apply map_lookup_filter_None. right.
    intros x Hx. simplify_eq. simpl. intros Hkeep. by apply Hkeep.
  - intros settings llm fuel stream_request request_id session_id search registry_at Hreg.
    assert (forall c, polled request_id registry_at c = false) as Hc.
    { intros c. unfold polled. by apply unmarked_is_connected. }
    split.
    + intros now. apply unified_stream_connected_eq; [done|].
      intros c. unfold polled, is_disconnected, register_stream.
      by rewrite lookup_insert_eq.
    + intros results m out Hsearch Hmax Hout n.
      rewrite (unified_stream_finishes settings llm fuel stream_request request_id
                 session_id search registry_at _ results out
                 (search_phase_capped _ _ _ _ _ _ _ Hsearch Hmax (Hc AfterSearch)
                    (fun i => Hc (BeforeResult i)))
                 (Hc BeforeGeneration) (fun i => Hc (AfterChunk i)) Hout).
      done.
Qed.

Lemma absent_entry_is_connected_witness :
  unified_stream settings0 two_texts 3 (request_capped (Some 2)) "r-1" "r-1" good_search
    entry_removed_midway
  = Closed
      [format_sse "r-1" "r-1" "status" (Text "Processing query") [("step", MStr "init")];
       format_sse "r-1" "r-1" "status" (Text "Searching the web...")
         [("step", MStr "search_start")];
       search_complete "r-1" "r-1" 7;
       result_envelope "r-1" "r-1" 1 2 ∅;
       result_envelope "r-1" "r-1" 2 2 ∅;
       format_sse "r-1" "r-1" "status" (Text "Generating answer...")
         [("step", MStr "generation_start")];
       chunk_envelope "r-1" "r-1" 1 "Paris is the capital";
       chunk_envelope "r-1" "r-1" 2 " of France.";
       generation_complete "r-1" "r-1" 6 2;
       format_sse "r-1" "r-1" "status" (Text "Request completed")
         [("step", MStr "complete")];
       DONE].
Proof.
  destruct absent_entry_is_connected as (_ & _ & _ & Hstream).
  destruct (Hstream settings0 two_texts 3%nat (request_capped (Some 2)) "r-1" "r-1"
              good_search entry_removed_midway) as [_ Hclosed].
  { intros [| | |]; first [by left | right; eexists; split; reflexivity]. }
  apply (Hclosed seven_results 2 ["Paris is the capital"; " of France."]); reflexivity.
Defined.

(** The entry of the stream is removed, marked as it was, when the
    generation is about to begin, and the generator's backend goes on
    sending frames with an empty response: the stream is treated as
    connected, and waits for a fragment that never comes. It does not
    reach the end marker, however many frames the backend has sent. *)
Lemma entry_removed_then_waiting :
  (exists stream,
     unified_stream settings0 (fun _ => blank_backend) 1000 request0 "r-1" "r-1"
       good_search entry_removed_midway = Waiting stream) /\
  ~ exists fuel stream,
      unified_stream settings0 (fun _ => blank_backend) fuel request0 "r-1" "r-1"
        good_search entry_removed_midway = Closed stream.
Proof.
  assert (forall fuel, exists stream,
            unified_stream settings0 (fun _ => blank_backend) fuel request0 "r-1" "r-1"
              good_search entry_removed_midway = Waiting stream) as Hwaits.
  { intros fuel. unfold unified_stream, generation_of, generate_answer_streaming.
    destruct (search_phase_hands_on request0 "r-1" "r-1" good_search entry_removed_midway)
      as (found & results & ->).
    { by intros [| | |]. }
    change (polled "r-1" entry_removed_midway BeforeGeneration) with false.
    cbv iota beta.
    rewrite LlmServiceFacts.blank_backend_loops. simpl.
    rewrite blank_backend_yields_nothing. simpl. eauto. }
  split; [apply Hwaits|].
  intros (fuel & stream & H). destruct (Hwaits fuel) as [waiting Hw].
  by rewrite Hw in H.
Qed.

(** *** The registry as this program leaves it *)

(** Nothing this program does to the registry sets a disconnected flag:
    after any history of tracked streams, completion hooks and sweeps, the
    disconnect check answers false for every request. So no check cuts
    short a stream that finds the registry in such a state at each of its
    checks: whenever that stream has ended, it has ended with the final
    status envelope and the end marker. *)
Theorem own_operations_never_disconnect :
  (forall history rid, is_disconnected (registry_after history) rid = false) /\
  (forall settings llm fuel stream_request request_id session_id search registry_at
          stream,
     (forall c, exists history, registry_at c = registry_after history) ->
     unified_stream settings llm fuel stream_request request_id session_id search
       registry_at = Closed stream ->
     exists body,
       stream
       = body ++ [format_sse request_id session_id "status" (Text "Request completed")
                    [("step", MStr "complete")]; DONE]).
Proof.
  split; [apply registry_after_connected|].
  intros settings llm fuel stream_request request_id session_id search registry_at stream
         Hown.
  assert (forall c, polled request_id registry_at c = false) as Hc.
  { intros c. unfold polled. destruct (Hown c) as [history ->].
    apply registry_after_connected. }
  unfold unified_stream.
  destruct (search_phase_hands_on stream_request request_id session_id search
              registry_at Hc) as (found & results & ->).
  rewrite Hc.
  destruct (generation_of _ _ _ _ _ _ _) as [run|].
  - pose proof (generation_phase_alive stream_request request_id session_id
                  (fun _ _ _ _ => run) registry_at results
                  (fun i => Hc (AfterChunk i))) as Halive.
    destruct (generation_phase _ _ _ _ _ _) as [answer alive]. simpl in Halive.
    subst alive. intros [= <-].
    exists ([format_sse request_id session_id "status" (Text "Processing query")
               [("step", MStr "init")];
             format_sse request_id session_id "status" (Text "Searching the web...")
               [("step", MStr "search_start")]] ++
            found ++
            [format_sse request_id session_id "status" (Text "Generating answer...")
               [("step", MStr "generation_start")]] ++ answer).
    by rewrite <- !app_assoc.
  - destruct (stream_chunks_alive request_id session_id registry_at 0 0 0 false
                (yielded_within fuel MAX_LLM_ITERATIONS
                   (llm (generate_payload settings (query stream_request) results
                           (timeout stream_request))) 0 initial_state [])
                (fun i => Hc (AfterChunk i))) as [r Hr].
    destruct (stream_chunks _ _ _ _ _ _ _ _) as [answer r']. simpl in Hr. by subst r'.
Qed.

(** *** The formatter's window and the cap on the results shown *)



End PipelineFacts.
